(** * ride-sync-app: the real-time synchronisation and alerting layer

    A shallow embedding of the client hooks and components that carry the
    state of a ride:

    - [Api]            : src/lib/api.ts (types, response envelope, alert requests)
    - [AlertSystem]    : src/hooks/use-alert-system.ts
    - [RealTimeUpdates]: src/hooks/use-real-time-updates.ts
    - [LocationSync]   : src/hooks/use-location-sync.ts
    - [MapDashboard]   : the MapDashboard component (anomaly detection, map feed)
    - [GoogleMap]      : the GoogleMap component (marker reconciliation)

    React state cells are fields of a record, a state setter is a function on
    that record, and [setX (prev => ...)] is the functional update it names.
    The values an asynchronous call or a browser API hands back (a settled
    promise, [Date.now()], [Math.random()], a geolocation callback) are
    arguments of the function that consumes them. *)

From Stdlib Require Import ZArith QArith String List Lia.
From Stdlib Require Import DecimalString.
From stdpp Require Import base option list strings gmap fin_maps.

Open Scope Z_scope.

(** JavaScript truthiness of an optional string: [undefined] and the empty
    string are falsy. *)
Definition truthy (s : option string) : bool :=
  match s with
  | None => false
  | Some s => negb (String.eqb s "")
  end.

(** [n.toString()] for an integral number. *)
Definition Z_toString (n : Z) : string := NilZero.string_of_int (Z.to_int n).

(** The argument a [Date] object was built from: [new Date(ms)] or
    [new Date(text)]. *)
Inductive Date : Type :=
| Date_ms (ms : Z)
| Date_text (s : string).

(* ------------------------------------------------------------------ *)
(** ** src/lib/api.ts *)
(* ------------------------------------------------------------------ *)
Module Api.

Inductive AlertType := location_update | status_change | emergency | traffic | system.
Inductive Severity := low | medium | high | critical.

#[global] Instance AlertType_eq_dec : EqDecision AlertType.
Proof. solve_decision. Defined.
#[global] Instance Severity_eq_dec : EqDecision Severity.
Proof. solve_decision. Defined.

(** [interface Alert] *)
Record Alert := {
  id : string;
  rideId : string;
  userId : string;
  type : AlertType;
  message : string;
  severity : Severity;
  createdAt : string;
  readAt : option string;
}.

(** [interface ApiResponse<T>] *)
Record ApiResponse (T : Type) := {
  success : bool;
  data : T;
  resp_message : option string;
  resp_timestamp : string;
}.
Arguments success {T} _.
Arguments data {T} _.
Arguments resp_message {T} _.
Arguments resp_timestamp {T} _.

(** How the promise returned by [request] settles: [request] rethrows a
    failed [fetch] and throws on a response that is not [ok]; otherwise it
    resolves with the decoded envelope. *)
Inductive Settled (T : Type) :=
| Fulfilled (response : ApiResponse T)
| Rejected.
Arguments Fulfilled {T} _.
Arguments Rejected {T}.

(** The JSON body of the two alert posts. *)
Record AlertBody := {
  body_rideId : string;
  body_type : AlertType;
  body_message : string;
  body_severity : Severity;
}.

(** What [request(endpoint, options)] is called with. *)
Record Request := {
  endpoint : string;
  method : string;
  body : option AlertBody;
}.

(** The methods of [ApiClient] that build the alert requests. *)
Definition sendAlert (data : AlertBody) : Request :=
  {| endpoint := "/api/v1/alerts"; method := "POST"; body := Some data |}.

Definition getRideAlerts (rideId : string) : Request :=
  {| endpoint := "/api/v1/rides/" +:+ rideId +:+ "/alerts"; method := "GET"; body := None |}.

Definition sendEmergencyAlert (rideId message : string) : Request :=
  {| endpoint := "/api/v1/alerts/emergency";
     method := "POST";
     body := Some {| body_rideId := rideId;
                     body_type := emergency;
                     body_message := message;
                     body_severity := critical |} |}.

(** [interface User], the fields the ride components read. *)
Record User := {
  user_id : string;
  user_username : string;
  user_email : string;
  user_name : string;
}.

(** Modelled from the spec: [RideMember] is imported from lib/api by the
    presence hook, but its declaration is not part of the sources; the fields
    are the ones MapDashboard reads, typed as MemberPresence describes them
    (optional coordinates and optional last update time). [latitude] and
    [longitude] are [Some] exactly when the JSON value is a number. *)
Record RideMember := {
  member_id : string;
  user : User;
  status : string;
  latitude : option Q;
  longitude : option Q;
  lastLocationUpdate : option string;
}.

(** A call of an [apiClient] method by a hook. [getRideMembers] and
    [updateRideLocation] are called by the hooks; their bodies are not part
    of the sources, so they stay calls by name. *)
Inductive Call :=
| call_sendAlert (data : AlertBody)
| call_getRideAlerts (rideId : string)
| call_sendEmergencyAlert (rideId message : string)
| call_getRideMembers (rideId : string)
| call_updateRideLocation (rideId : string) (latitude longitude : Q).

(** The HTTP request behind a call, for the methods present in the sources. *)
Definition request_of (c : Call) : option Request :=
  match c with
  | call_sendAlert data => Some (sendAlert data)
  | call_getRideAlerts rideId => Some (getRideAlerts rideId)
  | call_sendEmergencyAlert rideId message => Some (sendEmergencyAlert rideId message)
  | call_getRideMembers _ => None
  | call_updateRideLocation _ _ _ => None
  end.

End Api.

(** An [async] function of a hook, up to its single [await]: either it
    returns before calling the backend, or it issues one call and resumes
    with the settled promise, updating the hook state of that later moment. *)
Inductive Task (T S : Type) : Type :=
| Return
| Await (call : Api.Call) (resume : Api.Settled T -> S -> S).
Arguments Return {T S}.
Arguments Await {T S} _ _.

(** Running a task against a backend in one go: the state reached and the
    backend calls made. *)
Definition runTask {T S : Type} (backend : Api.Call -> Api.Settled T)
    (t : Task T S) (s : S) : S * list Api.Call :=
  match t with
  | Return => (s, [])
  | Await call resume => (resume (backend call) s, [call])
  end.

(* ------------------------------------------------------------------ *)
(** ** src/hooks/use-alert-system.ts *)
(* ------------------------------------------------------------------ *)
Module AlertSystem.

Inductive AlertType := info | warning | error | success | emergency.

#[global] Instance AlertType_eq_dec : EqDecision AlertType.
Proof. solve_decision. Defined.

(** [interface Alert] *)
Record Alert := {
  id : string;
  message : string;
  type : AlertType;
  timestamp : Date;
  duration : option Z;
  rideId : option string;
  severity : option Api.Severity;
}.

(** The two state cells of the hook, and the [setTimeout] callbacks that
    [addAlert] has registered: each removes the alert [timer_id] after
    [timer_delay] milliseconds. *)
Record Timer := { timer_id : string; timer_delay : Z }.

Record State := {
  alerts : list Alert;
  serverAlerts : list Api.Alert;
  timers : list Timer;
}.

Definition initial : State :=
  {| alerts := []; serverAlerts := []; timers := [] |}.

Definition setAlerts (f : list Alert -> list Alert) (st : State) : State :=
  {| alerts := f (alerts st); serverAlerts := serverAlerts st; timers := timers st |}.

Definition setServerAlerts (l : list Api.Alert) (st : State) : State :=
  {| alerts := alerts st; serverAlerts := l; timers := timers st |}.

Definition setTimeout (t : Timer) (st : State) : State :=
  {| alerts := alerts st; serverAlerts := serverAlerts st; timers := timers st ++ [t] |}.

(** What one call of [addAlert] reads from the runtime: [Date.now()],
    [Math.random().toString(36).substr(2, 9)] and [new Date()]. *)
Record Env := {
  Date_now : Z;
  Math_random : string;
  new_Date : Z;
}.

Section Hook.
(** The options the hook was called with. *)
Variable rideId_opt : option string.
Variable enableServerSync : bool.

(** [addAlert(message, type = "info", duration = 5000)]; an argument left
    out is [None]. Returns the new alert's id. *)
Definition addAlert (e : Env) (message : string) (type_arg : option AlertType)
    (duration_arg : option Z) (st : State) : string * State :=
  let type := default info type_arg in
  let duration := default 5000 duration_arg in
  let alert :=
    {| id := Z_toString (Date_now e) +:+ Math_random e;
       message := message;
       type := type;
       timestamp := Date_ms (new_Date e);
       duration := Some duration;
       rideId := rideId_opt;
       severity := None |} in
  let st := setAlerts (fun prev => prev ++ [alert]) st in
  let st :=
    if bool_decide (duration > 0)
    then setTimeout {| timer_id := id alert; timer_delay := duration |} st
    else st in
  (id alert, st).

Definition removeAlert (i : string) (st : State) : State :=
  setAlerts (fun prev => filter (fun alert => id alert ≠ i) prev) st.

Definition clearAllAlerts (st : State) : State :=
  setAlerts (fun _ => []) st.

(** A registered timer fires: its callback calls [removeAlert]. *)
Definition fireTimer (t : Timer) (st : State) : State :=
  removeAlert (timer_id t) st.

(** [sendServerAlert(message, type, severity = "medium")] *)
Definition sendServerAlert (e : Env) (message : string) (type : Api.AlertType)
    (severity_arg : option Api.Severity) : Task Api.Alert State :=
  let severity := default Api.medium severity_arg in
  match truthy rideId_opt, rideId_opt with
  | true, Some rideId =>
      Await
        (Api.call_sendAlert {| Api.body_rideId := rideId;
                               Api.body_type := type;
                               Api.body_message := message;
                               Api.body_severity := severity |})
        (fun settled st =>
           match settled with
           | Api.Fulfilled response =>
               if Api.success response
               then snd (addAlert e message
                           (Some (if decide (type = Api.emergency) then emergency else info))
                           (Some 0) st)
               else st
           | Api.Rejected =>
               snd (addAlert e "Failed to send alert to server" (Some error) None st)
           end)
  | _, _ => Return
  end.

(** [sendEmergencyAlert(message)] *)
Definition sendEmergencyAlert (e : Env) (message : string) : Task Api.Alert State :=
  match truthy rideId_opt, rideId_opt with
  | true, Some rideId =>
      Await
        (Api.call_sendEmergencyAlert rideId message)
        (fun settled st =>
           match settled with
           | Api.Fulfilled response =>
               if Api.success response
               then snd (addAlert e ("EMERGENCY: " +:+ message) (Some emergency) (Some 0) st)
               else st
           | Api.Rejected =>
               snd (addAlert e "Failed to send emergency alert" (Some error) None st)
           end)
  | _, _ => Return
  end.

(** The four predefined alerts. Each adds its local alert at once and, when
    server sync is on, calls [sendServerAlert] without awaiting it: the
    result is the state after the local alert and the sender's task. [e] is
    what the local [addAlert] reads from the runtime, [e'] what the sender's
    [addAlert] reads later. *)
Definition showLocationAlert (e e' : Env) (memberName action : string) (st : State)
    : State * Task Api.Alert State :=
  let message := memberName +:+ " " +:+ action in
  ((addAlert e message (Some info) None st).2,
   if enableServerSync
   then sendServerAlert e' message Api.location_update (Some Api.low)
   else Return).

Definition showTrafficAlert (e e' : Env) (message : string) (st : State)
    : State * Task Api.Alert State :=
  let alertMessage := "Traffic Alert: " +:+ message in
  ((addAlert e alertMessage (Some warning) None st).2,
   if enableServerSync
   then sendServerAlert e' alertMessage Api.traffic (Some Api.medium)
   else Return).

Definition showErrorAlert (e e' : Env) (message : string) (st : State)
    : State * Task Api.Alert State :=
  let alertMessage := "Error: " +:+ message in
  ((addAlert e alertMessage (Some error) None st).2,
   if enableServerSync
   then sendServerAlert e' alertMessage Api.system (Some Api.high)
   else Return).

Definition showSuccessAlert (e e' : Env) (message : string) (st : State)
    : State * Task Api.Alert State :=
  ((addAlert e message (Some success) None st).2,
   if enableServerSync
   then sendServerAlert e' message Api.system (Some Api.low)
   else Return).

(** The periodic [fetchServerAlerts] of the server-sync effect, which is
    set up only when [enableServerSync && rideId]. *)
Definition fetchServerAlerts : Task (list Api.Alert) State :=
  match enableServerSync && truthy rideId_opt, rideId_opt with
  | true, Some rideId =>
      Await
        (Api.call_getRideAlerts rideId)
        (fun settled st =>
           match settled with
           | Api.Fulfilled response =>
               if Api.success response
               then setServerAlerts (Api.data response) st
               else st
           | Api.Rejected => st
           end)
  | _, _ => Return
  end.

(** The mirror of a server alert in the merged view. *)
Definition ofServerAlert (serverAlert : Api.Alert) : Alert :=
  {| id := Api.id serverAlert;
     message := Api.message serverAlert;
     type := if decide (Api.type serverAlert = Api.emergency) then emergency else info;
     timestamp := Date_text (Api.createdAt serverAlert);
     duration := None;
     rideId := Some (Api.rideId serverAlert);
     severity := Some (Api.severity serverAlert) |}.

(** [allAlerts], returned by the hook as [alerts]. *)
Definition allAlerts (st : State) : list Alert :=
  alerts st ++ map ofServerAlert (serverAlerts st).

End Hook.

End AlertSystem.

(* ------------------------------------------------------------------ *)
(** ** src/hooks/use-real-time-updates.ts *)
(* ------------------------------------------------------------------ *)
Module RealTimeUpdates.

Record State := {
  members : list Api.RideMember;
  isConnected : bool;
  error : option string;
  lastUpdate : option Z;
}.

Definition initial : State :=
  {| members := []; isConnected := false; error := None; lastUpdate := None |}.

Definition setMembers (v : list Api.RideMember) (st : State) : State :=
  {| members := v; isConnected := isConnected st; error := error st; lastUpdate := lastUpdate st |}.

Definition setIsConnected (v : bool) (st : State) : State :=
  {| members := members st; isConnected := v; error := error st; lastUpdate := lastUpdate st |}.

Definition setError (v : option string) (st : State) : State :=
  {| members := members st; isConnected := isConnected st; error := v; lastUpdate := lastUpdate st |}.

Definition setLastUpdate (v : option Z) (st : State) : State :=
  {| members := members st; isConnected := isConnected st; error := error st; lastUpdate := v |}.

Section Hook.
Variable rideId : string.

(** [fetchUpdates]; [now] is the [new Date()] read when the response is in. *)
Definition fetchUpdates (now : Z) : Task (list Api.RideMember) State :=
  Await
    (Api.call_getRideMembers rideId)
    (fun settled st =>
       match settled with
       | Api.Fulfilled response =>
           if Api.success response
           then setIsConnected true
                  (setError None
                     (setLastUpdate (Some now)
                        (setMembers (Api.data response) st)))
           else setIsConnected false
                  (setError (Some "Failed to fetch ride updates") st)
       | Api.Rejected =>
           setIsConnected false
             (setError (Some "Network error while fetching updates") st)
       end).

End Hook.

End RealTimeUpdates.

(* ------------------------------------------------------------------ *)
(** ** src/hooks/use-location-sync.ts *)
(* ------------------------------------------------------------------ *)
Module LocationSync.

Record LocationData := {
  latitude : Q;
  longitude : Q;
  accuracy : option Q;
  timestamp : string;
}.

(** [GeolocationPosition.coords], the fields [handleSuccess] reads. *)
Record GeolocationPosition := {
  coords_latitude : Q;
  coords_longitude : Q;
  coords_accuracy : Q;
}.

(** [GeolocationPositionError]: its [code], with the three named codes. *)
Definition PERMISSION_DENIED : Z := 1.
Definition POSITION_UNAVAILABLE : Z := 2.
Definition TIMEOUT : Z := 3.

(** The state cells of the hook. *)
Record State := {
  isTracking : bool;
  currentLocation : option LocationData;
  error : option string;
  lastSyncTime : option Z;
}.

(** What the hook holds outside React state: the geolocation watch and the
    sync interval registered by the running effect (the interval's callback
    closes over the [currentLocation] of the render that created it), the
    [getCurrentPosition] requests not answered yet, and the uploads in
    flight. *)
Record Runtime := {
  watch : bool;
  syncInterval : option (option LocationData);
  pendingPosition : nat;
  uploads : list LocationData;
}.

Record Config := { state : State; runtime : Runtime }.

Definition initial : Config :=
  {| state := {| isTracking := false; currentLocation := None;
                 error := None; lastSyncTime := None |};
     runtime := {| watch := false; syncInterval := None;
                   pendingPosition := 0; uploads := [] |} |}.

Definition setIsTracking (v : bool) (st : State) : State :=
  {| isTracking := v; currentLocation := currentLocation st;
     error := error st; lastSyncTime := lastSyncTime st |}.

Definition setCurrentLocation (v : option LocationData) (st : State) : State :=
  {| isTracking := isTracking st; currentLocation := v;
     error := error st; lastSyncTime := lastSyncTime st |}.

Definition setError (v : option string) (st : State) : State :=
  {| isTracking := isTracking st; currentLocation := currentLocation st;
     error := v; lastSyncTime := lastSyncTime st |}.

Definition setLastSyncTime (v : option Z) (st : State) : State :=
  {| isTracking := isTracking st; currentLocation := currentLocation st;
     error := error st; lastSyncTime := v |}.

(** [syncLocationToServer(location)] up to its [await]: the upload is in
    flight. *)
Definition syncLocationToServer (location : LocationData) (rt : Runtime) : Runtime :=
  {| watch := watch rt; syncInterval := syncInterval rt;
     pendingPosition := pendingPosition rt; uploads := uploads rt ++ [location] |}.

(** [syncLocationToServer] after its [await]; [now] is [new Date()]. *)
Definition syncLocationToServer_resume (settled : Api.Settled unit) (now : Z)
    (st : State) : State :=
  match settled with
  | Api.Fulfilled response =>
      if Api.success response
      then setError None (setLastSyncTime (Some now) st)
      else setError (Some "Failed to sync location to server") st
  | Api.Rejected => setError (Some "Network error while syncing location") st
  end.

(** The cleanup function the effect returns: [clearWatch(watchId)] and
    [clearInterval(syncInterval)]. Requests made with [getCurrentPosition]
    have no handle and stay pending. *)
Definition cleanup (rt : Runtime) : Runtime :=
  {| watch := false; syncInterval := None;
     pendingPosition := pendingPosition rt; uploads := uploads rt |}.

Section Hook.
(** ["geolocation" in navigator] *)
Variable geolocation : bool.

(** The body of the [startTracking] callback, run by the effect. *)
Definition startTracking (c : Config) : Config :=
  if negb geolocation
  then {| state := setError (Some "Geolocation is not supported by this browser") (state c);
          runtime := runtime c |}
  else
    {| state := setError None (setIsTracking true (state c));
       runtime :=
         {| watch := true;
            syncInterval := Some (currentLocation (state c));
            pendingPosition := S (pendingPosition (runtime c));
            uploads := uploads (runtime c) |} |}.

(** The effect [useEffect(..., [isTracking, startTracking])], run after a
    render in which a dependency changed: the previous cleanup first, then
    [startTracking] when [isTracking] holds. [startTracking] is rebuilt
    whenever [currentLocation] changes, so that counts as a dependency. *)
Definition effect (c : Config) : Config :=
  let c := {| state := state c; runtime := cleanup (runtime c) |} in
  if isTracking (state c) then startTracking c else c.

(** [handleSuccess(position)]; [iso] is [new Date().toISOString()]. The
    location object is new, so the effect runs again. *)
Definition handleSuccess (position : GeolocationPosition) (iso : string)
    (c : Config) : Config :=
  let locationData :=
    {| latitude := coords_latitude position;
       longitude := coords_longitude position;
       accuracy := Some (coords_accuracy position);
       timestamp := iso |} in
  effect
    {| state := setCurrentLocation (Some locationData) (state c);
       runtime := syncLocationToServer locationData (runtime c) |}.

(** [handleError(error)] *)
Definition handleError (code : Z) (c : Config) : Config :=
  let errorMessage :=
    if decide (code = PERMISSION_DENIED) then "Location access denied by user"
    else if decide (code = POSITION_UNAVAILABLE) then "Location information unavailable"
    else if decide (code = TIMEOUT) then "Location request timed out"
    else "Unable to get location" in
  let c' := {| state := setIsTracking false (setError (Some errorMessage) (state c));
               runtime := runtime c |} in
  if isTracking (state c) then effect c' else c'.

(** [stopTracking()] *)
Definition stopTracking (c : Config) : Config :=
  let c' := {| state := setError None (setCurrentLocation None (setIsTracking false (state c)));
               runtime := runtime c |} in
  if isTracking (state c) || bool_decide (is_Some (currentLocation (state c)))
  then effect c' else c'.

(** The [startTracking] the hook returns: [() => setIsTracking(true)]. *)
Definition requestTracking (c : Config) : Config :=
  let c' := {| state := setIsTracking true (state c); runtime := runtime c |} in
  if isTracking (state c) then c' else effect c'.

(** What can happen to a mounted hook. *)
Inductive Event :=
| StartTracking
| StopTracking
| CurrentPosition (position : GeolocationPosition) (iso : string)
| CurrentPositionError (code : Z)
| WatchPosition (position : GeolocationPosition) (iso : string)
| WatchError (code : Z)
| IntervalTick
| UploadSettled (settled : Api.Settled unit) (now : Z).

(** One event; [None] when the event cannot occur in this configuration (no
    request pending, no watch or interval registered, no upload in flight). *)
Definition step (ev : Event) (c : Config) : option Config :=
  let rt := runtime c in
  match ev with
  | StartTracking => Some (requestTracking c)
  | StopTracking => Some (stopTracking c)
  | CurrentPosition position iso =>
      match pendingPosition rt with
      | O => None
      | S n =>
          Some (handleSuccess position iso
                  {| state := state c;
                     runtime := {| watch := watch rt; syncInterval := syncInterval rt;
                                   pendingPosition := n; uploads := uploads rt |} |})
      end
  | CurrentPositionError code =>
      match pendingPosition rt with
      | O => None
      | S n =>
          Some (handleError code
                  {| state := state c;
                     runtime := {| watch := watch rt; syncInterval := syncInterval rt;
                                   pendingPosition := n; uploads := uploads rt |} |})
      end
  | WatchPosition position iso =>
      if watch rt then Some (handleSuccess position iso c) else None
  | WatchError code =>
      if watch rt then Some (handleError code c) else None
  | IntervalTick =>
      match syncInterval rt with
      | None => None
      | Some None => Some c
      | Some (Some location) =>
          Some {| state := state c; runtime := syncLocationToServer location rt |}
      end
  | UploadSettled settled now =>
      match uploads rt with
      | [] => None
      | _ :: rest =>
          Some {| state := syncLocationToServer_resume settled now (state c);
                  runtime := {| watch := watch rt; syncInterval := syncInterval rt;
                                pendingPosition := pendingPosition rt; uploads := rest |} |}
      end
  end.

(** A trace of events, oldest first. *)
Fixpoint run (trace : list Event) (c : Config) : option Config :=
  match trace with
  | [] => Some c
  | ev :: trace => c' ← step ev c; run trace c'
  end.

End Hook.

End LocationSync.

(* ------------------------------------------------------------------ *)
(** ** The GoogleMap component *)
(* ------------------------------------------------------------------ *)
Module GoogleMap.

Record LatLng := { lat : Q; lng : Q }.

(** [interface Member] *)
Record Member := {
  id : string;
  name : string;
  username : string;
  status : string;
  location : LatLng;
  lastUpdate : Date;
}.

(** The values interpolated into the info window's content. *)
Record InfoWindow := {
  info_name : string;
  info_username : string;
  info_status : string;
  info_updated : string;
}.

(** A [google.maps.Marker] as the component builds it: position, the map it
    is on, title, the fill colour of its circle icon (the icon's other fields
    are constants) and the info window opened by its click listener. *)
Record Marker := {
  position : LatLng;
  onMap : bool;
  title : string;
  fillColor : string;
  infoWindow : InfoWindow;
}.

(** [marker.setPosition(p)] *)
Definition setPosition (p : LatLng) (marker : Marker) : Marker :=
  {| position := p; onMap := onMap marker; title := title marker;
     fillColor := fillColor marker; infoWindow := infoWindow marker |}.

(** The calls [updateMarkers] makes on markers and on the map. *)
Inductive MarkerOp :=
| Remove (id : string)
| Create (id : string) (marker : Marker)
| SetPosition (id : string) (p : LatLng)
| FitBounds (points : list LatLng).

Definition getMarkerColor (status : string) : string :=
  if decide (status = "arrived") then "#22c55e"
  else if decide (status = "on-route") then "#ea580c"
  else if decide (status = "waiting") then "#eab308"
  else "#6b7280".

Definition getStatusText (status : string) : string :=
  if decide (status = "arrived") then "Arrived"
  else if decide (status = "on-route") then "On Route"
  else if decide (status = "waiting") then "Waiting"
  else "Unknown".

(** [members.find((member) => member.id === id)] finds a member. *)
Definition listed (members : list Member) (i : string) : Prop :=
  is_Some (find (fun member => bool_decide (id member = i)) members).

#[global] Instance listed_dec members i : Decision (listed members i).
Proof. unfold listed. apply _. Defined.

Section Component.
(** [Date.prototype.toLocaleTimeString] *)
Variable toLocaleTimeString : Date -> string.

(** The marker built for a member that has none yet. *)
Definition newMarker (member : Member) : Marker :=
  {| position := location member;
     onMap := true;
     title := name member;
     fillColor := getMarkerColor (status member);
     infoWindow :=
       {| info_name := name member;
          info_username := username member;
          info_status := getStatusText (status member);
          info_updated := toLocaleTimeString (lastUpdate member) |} |}.

(** First loop: markers whose id no member has are taken off the map and
    deleted. [markersRef] is a JS [Map] from member id to marker. The store
    is a finite map, which does not record insertion order: the removal
    calls are listed in its key order, whereas the code visits the [Map] in
    insertion order. Which calls are made, and how many, is as in the code;
    their order among themselves is not, and nothing is stated about it. *)
Definition removeStale (members : list Member) (markers : gmap string Marker)
    : gmap string Marker * list MarkerOp :=
  (filter (fun entry => listed members entry.1) markers,
   (fun entry => Remove entry.1)
     <$> map_to_list (filter (fun entry => ¬ listed members entry.1) markers)).

(** Body of the second loop, for one member. *)
Definition upsert (acc : gmap string Marker * list MarkerOp) (member : Member)
    : gmap string Marker * list MarkerOp :=
  match acc.1 !! id member with
  | Some existingMarker =>
      (<[id member := setPosition (location member) existingMarker]> acc.1,
       acc.2 ++ [SetPosition (id member) (location member)])
  | None =>
      (<[id member := newMarker member]> acc.1,
       acc.2 ++ [Create (id member) (newMarker member)])
  end.

(** [updateMarkers], as a function of the map instance being there, the
    [members] prop and the marker store; returns the store and the calls
    made. *)
Definition updateMarkers (mapInstance : bool) (members : list Member)
    (markers : gmap string Marker) : gmap string Marker * list MarkerOp :=
  if negb mapInstance then (markers, [])
  else
    let acc := fold_left upsert members (removeStale members markers) in
    (acc.1,
     acc.2 ++ match members with
              | [] => []
              | _ :: _ => [FitBounds (location <$> members)]
              end).

End Component.

End GoogleMap.

(* ------------------------------------------------------------------ *)
(** ** The MapDashboard component *)
(* ------------------------------------------------------------------ *)
Module MapDashboard.

Section Component.
(** [new Date(text).getTime()]; [None] stands for [NaN] (not a date). *)
Variable Date_getTime : string -> option Z.
(** The [rideId] MapDashboard gives to [useAlertSystem]. *)
Variable rideId_opt : option string.

(** The condition of the anomaly check:
    [member.lastLocationUpdate && now - new Date(...).getTime() > 5 * 60 * 1000]. *)
Definition stale (now : Z) (member : Api.RideMember) : bool :=
  truthy (Api.lastLocationUpdate member) &&
  match Api.lastLocationUpdate member with
  | Some text =>
      match Date_getTime text with
      | Some t => bool_decide (now - t > 5 * 60 * 1000)
      | None => false
      end
  | None => false
  end.

Definition anomalyMessage (member : Api.RideMember) : string :=
  "Location anomaly: " +:+ Api.user_name (Api.user member)
    +:+ " has not updated location for over 5 minutes".

(** One turn of the [forEach]; the counter numbers the [addAlert] calls of
    the pass, [envs n] being what the n-th call reads from the runtime. *)
Definition checkMember (now : Z) (envs : nat -> AlertSystem.Env)
    (acc : nat * AlertSystem.State) (member : Api.RideMember)
    : nat * AlertSystem.State :=
  if stale now member
  then (S acc.1,
        (AlertSystem.addAlert rideId_opt (envs acc.1) (anomalyMessage member)
           (Some AlertSystem.warning) (Some 10000) acc.2).2)
  else acc.

(** The anomaly detection effect, run when [rideMembers] changes; [now] is
    the [Date.now()] read at its start. *)
Definition anomalyDetection (now : Z) (envs : nat -> AlertSystem.Env)
    (rideMembers : list Api.RideMember) (st : AlertSystem.State) : AlertSystem.State :=
  match rideMembers with
  | [] => st
  | _ :: _ => (fold_left (checkMember now envs) rideMembers (0%nat, st)).2
  end.

(** [typeof member.latitude === "number" && typeof member.longitude === "number"] *)
Definition hasCoordinates (member : Api.RideMember) : Prop :=
  is_Some (Api.latitude member) ∧ is_Some (Api.longitude member).

#[global] Instance hasCoordinates_dec member : Decision (hasCoordinates member).
Proof. unfold hasCoordinates. apply _. Defined.

(** The object built by the [.map] of the [members] prop. It is applied
    after the filter, where both coordinates are numbers; [0] is what the
    total function reads from a missing one. *)
Definition toMapMember (now : Z) (member : Api.RideMember) : GoogleMap.Member :=
  {| GoogleMap.id := Api.member_id member;
     GoogleMap.name := Api.user_name (Api.user member);
     GoogleMap.username := Api.user_username (Api.user member);
     GoogleMap.status := Api.status member;
     GoogleMap.location :=
       {| GoogleMap.lat := default 0%Q (Api.latitude member);
          GoogleMap.lng := default 0%Q (Api.longitude member) |};
     GoogleMap.lastUpdate :=
       match Api.lastLocationUpdate member with
       | Some text => if truthy (Some text) then Date_text text else Date_ms now
       | None => Date_ms now
       end |}.

(** The [members] prop handed to GoogleMap. *)
Definition mapMembers (now : Z) (rideMembers : list Api.RideMember) : list GoogleMap.Member :=
  toMapMember now <$> filter hasCoordinates rideMembers.

End Component.

End MapDashboard.

(* ------------------------------------------------------------------ *)
(** ** The AlertCenter component *)
(* ------------------------------------------------------------------ *)
Module AlertCenter.

(** The emergency banner: the message shown, the count of the "+N more"
    badge when there is one, and the id its Dismiss button passes to
    [onDismiss]. *)
Record Banner := {
  banner_message : string;
  banner_more : option nat;
  banner_dismiss : string;
}.

(** What the component renders: the banner when there is one, the
    [AlertNotification] elements in order, and the count of the
    "+N more alerts" line when there is one. *)
Record View := {
  banner : option Banner;
  notifications : list AlertSystem.Alert;
  more : option nat;
}.

Definition emergencyAlerts (alerts : list AlertSystem.Alert) : list AlertSystem.Alert :=
  filter (fun alert => AlertSystem.type alert = AlertSystem.emergency) alerts.

Definition regularAlerts (alerts : list AlertSystem.Alert) : list AlertSystem.Alert :=
  filter (fun alert => AlertSystem.type alert ≠ AlertSystem.emergency) alerts.

(** [array.slice(-3)]: the last three elements, or all of them when there
    are fewer. *)
Definition slice_last3 {A : Type} (l : list A) : list A :=
  drop (length l - 3)%nat l.

(** The component; [None] is the [null] it returns for an empty list. *)
Definition render (alerts : list AlertSystem.Alert) : option View :=
  match alerts with
  | [] => None
  | _ :: _ =>
      Some
        {| banner :=
             match emergencyAlerts alerts with
             | [] => None
             | first :: _ =>
                 Some {| banner_message := AlertSystem.message first;
                         banner_more :=
                           if bool_decide (1 < length (emergencyAlerts alerts))%nat
                           then Some (length (emergencyAlerts alerts) - 1)%nat
                           else None;
                         banner_dismiss := AlertSystem.id first |}
             end;
           notifications := slice_last3 (regularAlerts alerts);
           more :=
             if bool_decide (3 < length (regularAlerts alerts))%nat
             then Some (length (regularAlerts alerts) - 3)%nat
             else None |}
  end.

End AlertCenter.

(* ------------------------------------------------------------------ *)
(** ** src/lib/api.ts: the ApiClient class *)
(* ------------------------------------------------------------------ *)
Module ApiClient.

(** The fields of the client. *)
Record Client := {
  baseUrl : string;
  token : option string;
}.

(** A client together with the browser's [localStorage]. *)
Record World := {
  client : Client;
  localStorage : gmap string string;
}.

(** What [fetch] gives back: a network failure, or a response with its
    [ok] flag, status and decoded JSON body ([None] when decoding throws). *)
Inductive FetchResult (T : Type) :=
| NetworkError
| Response (ok : bool) (status : Z) (json : option (Api.ApiResponse T)).
Arguments NetworkError {T}.
Arguments Response {T} _ _ _.

Section Runtime.
(** [typeof window !== "undefined"] *)
Variable window : bool.

(** [new ApiClient(baseUrl)] *)
Definition new (baseUrl : string) (storage : gmap string string) : World :=
  {| client := {| baseUrl := baseUrl;
                  token := if window then storage !! "auth_token" else None |};
     localStorage := storage |}.

Definition setToken (t : string) (w : World) : World :=
  {| client := {| baseUrl := baseUrl (client w); token := Some t |};
     localStorage :=
       if window then <["auth_token" := t]> (localStorage w) else localStorage w |}.

Definition clearToken (w : World) : World :=
  {| client := {| baseUrl := baseUrl (client w); token := None |};
     localStorage :=
       if window then delete "auth_token" (localStorage w) else localStorage w |}.

End Runtime.

(** The headers [request] sends: the JSON content type, overridden by the
    caller's [options.headers], and the bearer token when there is one. *)
Definition headers (c : Client) (optionsHeaders : gmap string string)
    : gmap string string :=
  let headers := optionsHeaders ∪ {[ "Content-Type" := "application/json" ]} in
  match truthy (token c), token c with
  | true, Some t => <["Authorization" := "Bearer " +:+ t]> headers
  | _, _ => headers
  end.

(** The URL [request] fetches. *)
Definition url (c : Client) (endpoint : string) : string :=
  baseUrl c +:+ endpoint.

(** How [request] settles on the result of [fetch]. *)
Definition request {T : Type} (result : FetchResult T) : Api.Settled T :=
  match result with
  | NetworkError => Api.Rejected
  | Response ok _ json =>
      if negb ok then Api.Rejected
      else match json with
           | Some envelope => Api.Fulfilled envelope
           | None => Api.Rejected
           end
  end.

End ApiClient.

(* ------------------------------------------------------------------ *)
(** ** src/hooks/use-auth.tsx *)
(* ------------------------------------------------------------------ *)
Module Auth.

(** The [data] of a login response. *)
Record LoginData := {
  login_token : string;
  login_refreshToken : option string;
  login_user : Api.User;
}.

(** The state cells of [AuthProvider], with the [apiClient] singleton and
    [localStorage] it works on. The provider runs in the browser. *)
Record State := {
  user : option Api.User;
  isLoading : bool;
  api : ApiClient.World;
}.

Definition setUser (v : option Api.User) (st : State) : State :=
  {| user := v; isLoading := isLoading st; api := api st |}.

Definition setIsLoading (v : bool) (st : State) : State :=
  {| user := user st; isLoading := v; api := api st |}.

Definition onApi (f : ApiClient.World -> ApiClient.World) (st : State) : State :=
  {| user := user st; isLoading := isLoading st; api := f (api st) |}.

(** [localStorage.setItem] and [localStorage.removeItem], called directly. *)
Definition setItem (key value : string) (w : ApiClient.World) : ApiClient.World :=
  {| ApiClient.client := ApiClient.client w;
     ApiClient.localStorage := <[key := value]> (ApiClient.localStorage w) |}.

Definition removeItem (key : string) (w : ApiClient.World) : ApiClient.World :=
  {| ApiClient.client := ApiClient.client w;
     ApiClient.localStorage := delete key (ApiClient.localStorage w) |}.

(** [isAuthenticated: !!user] *)
Definition isAuthenticated (st : State) : bool :=
  bool_decide (is_Some (user st)).

(** How an [async] function of the provider ends: it returns, or it throws
    an error with this message ([None]: the error [request] threw). *)
Inductive Completion :=
| Returned
| Threw (message : option string).

(** [checkAuth], run on mount; [settled] is how [getUserProfile] settles when
    it is called. The second component tells whether it was called. *)
Definition checkAuth (settled : Api.Settled Api.User) (st : State) : State * bool :=
  let token := ApiClient.localStorage (api st) !! "auth_token" in
  match truthy token, token with
  | true, Some token =>
      let st := onApi (ApiClient.setToken true token) st in
      let st :=
        match settled with
        | Api.Fulfilled response =>
            if Api.success response
            then setUser (Some (Api.data response)) st
            else onApi (ApiClient.clearToken true) (onApi (removeItem "auth_token") st)
        | Api.Rejected =>
            onApi (ApiClient.clearToken true) (onApi (removeItem "auth_token") st)
        end in
      (setIsLoading false st, true)
  | _, _ => (setIsLoading false st, false)
  end.

(** [login(credentials)]; [settled] is how [apiClient.login] settles. *)
Definition login (settled : Api.Settled LoginData) (st : State) : State * Completion :=
  let st := setIsLoading true st in
  match settled with
  | Api.Fulfilled response =>
      if Api.success response
      then
        let st := onApi (ApiClient.setToken true (login_token (Api.data response))) st in
        let st := setUser (Some (login_user (Api.data response))) st in
        let st :=
          match truthy (login_refreshToken (Api.data response)),
                login_refreshToken (Api.data response) with
          | true, Some refreshToken => onApi (setItem "refresh_token" refreshToken) st
          | _, _ => st
          end in
        (setIsLoading false st, Returned)
      else
        (setIsLoading false st,
         Threw (Some (match truthy (Api.resp_message response), Api.resp_message response with
                      | true, Some message => message
                      | _, _ => "Login failed"
                      end)))
  | Api.Rejected => (setIsLoading false st, Threw None)
  end.

(** [register(userData)]; [registered] is how [apiClient.register] settles
    and [loggedIn] how the login that follows a successful registration
    settles. The second component tells whether that login was attempted. *)
Definition register (registered : Api.Settled Api.User) (loggedIn : Api.Settled LoginData)
    (st : State) : State * Completion * bool :=
  let st := setIsLoading true st in
  match registered with
  | Api.Fulfilled response =>
      if Api.success response
      then
        let r := login loggedIn st in
        (setIsLoading false r.1, r.2, true)
      else
        (setIsLoading false st,
         Threw (Some (match truthy (Api.resp_message response), Api.resp_message response with
                      | true, Some message => message
                      | _, _ => "Registration failed"
                      end)),
         false)
  | Api.Rejected => (setIsLoading false st, Threw None, false)
  end.

(** [logout()]; [settled] is how [apiClient.logout] settles when it is
    called. The second component is the refresh token sent, if any. *)
Definition logout (settled : Api.Settled string) (st : State) : State * option string :=
  let refreshToken := ApiClient.localStorage (api st) !! "refresh_token" in
  let sent := if truthy refreshToken then refreshToken else None in
  (onApi (removeItem "refresh_token")
     (onApi (ApiClient.clearToken true)
        (setUser None st)),
   sent).

End Auth.

(* ------------------------------------------------------------------ *)
(** ** Definitions used to state the properties *)
(* ------------------------------------------------------------------ *)

(** A fetch fails when the promise rejects or the envelope says
    [success: false]. *)
Definition fetchFailed {T : Type} (settled : Api.Settled T) : bool :=
  match settled with
  | Api.Fulfilled response => negb (Api.success response)
  | Api.Rejected => true
  end.

(** What the second loop of [updateMarkers] does to the entry of one id when
    it meets a member with that id: move the marker, or make one. *)
Definition touch (toLocaleTimeString : Date -> string)
    (entry : option GoogleMap.Marker) (member : GoogleMap.Member)
    : option GoogleMap.Marker :=
  Some (match entry with
        | Some existingMarker =>
            GoogleMap.setPosition (GoogleMap.location member) existingMarker
        | None => GoogleMap.newMarker toLocaleTimeString member
        end).

(** The calls of a pass of [updateMarkers] that finds a marker for every
    member and no marker without a member. *)
Definition secondPassOps (mapInstance : bool) (members : list GoogleMap.Member)
    : list GoogleMap.MarkerOp :=
  if mapInstance
  then ((fun member =>
           GoogleMap.SetPosition (GoogleMap.id member) (GoogleMap.location member))
          <$> members)
       ++ match members with
          | [] => []
          | _ :: _ => [GoogleMap.FitBounds (GoogleMap.location <$> members)]
          end
  else [].

(** The alert the n-th [addAlert] call of a detection pass builds for a
    member, and the timer registered with it. *)
Definition anomalyAlert (rideId : option string) (envs : nat -> AlertSystem.Env)
    (n : nat) (member : Api.RideMember) : AlertSystem.Alert :=
  {| AlertSystem.id :=
       Z_toString (AlertSystem.Date_now (envs n)) +:+ AlertSystem.Math_random (envs n);
     AlertSystem.message :=
       "Location anomaly: " +:+ Api.user_name (Api.user member)
         +:+ " has not updated location for over 5 minutes";
     AlertSystem.type := AlertSystem.warning;
     AlertSystem.timestamp := Date_ms (AlertSystem.new_Date (envs n));
     AlertSystem.duration := Some 10000;
     AlertSystem.rideId := rideId;
     AlertSystem.severity := None |}.

Definition anomalyTimer (envs : nat -> AlertSystem.Env) (n : nat) : AlertSystem.Timer :=
  {| AlertSystem.timer_id :=
       Z_toString (AlertSystem.Date_now (envs n)) +:+ AlertSystem.Math_random (envs n);
     AlertSystem.timer_delay := 10000 |}.

(** The member's last update time is known and lies more than five minutes
    (300000 ms) before [now]. *)
Definition lastUpdateOlderThan5Minutes (getTime : string -> option Z) (now : Z)
    (member : Api.RideMember) : Prop :=
  exists text t,
    Api.lastLocationUpdate member = Some text
    /\ text <> ""
    /\ getTime text = Some t
    /\ now - t > 300000.

(* ------------------------------------------------------------------ *)
(** ** Example data *)
(* ------------------------------------------------------------------ *)

(** A runtime reading used in the examples. *)
Definition env0 : AlertSystem.Env :=
  {| AlertSystem.Date_now := 1700000000000;
     AlertSystem.Math_random := "k3x9q2m7a";
     AlertSystem.new_Date := 1700000000000 |}.

(** A backend that answers every call with [success: false]. *)
Definition refusing : Api.Call -> Api.Settled Api.Alert :=
  fun _ =>
    Api.Fulfilled
      {| Api.success := false;
         Api.data := {| Api.id := ""; Api.rideId := ""; Api.userId := "";
                        Api.type := Api.system; Api.message := "";
                        Api.severity := Api.low; Api.createdAt := "";
                        Api.readAt := None |};
         Api.resp_message := Some "forbidden";
         Api.resp_timestamp := "2024-01-01T00:00:00Z" |}.

(** An accepting answer, and the backend that gives it to every call. *)
Definition accepted : Api.ApiResponse Api.Alert :=
  {| Api.success := true;
     Api.data := {| Api.id := "a-1"; Api.rideId := "ride-1"; Api.userId := "u-1";
                    Api.type := Api.emergency; Api.message := "help";
                    Api.severity := Api.critical;
                    Api.createdAt := "2024-01-01T00:00:00Z";
                    Api.readAt := None |};
     Api.resp_message := None;
     Api.resp_timestamp := "2024-01-01T00:00:00Z" |}.

Definition accepting : Api.Call -> Api.Settled Api.Alert :=
  fun _ => Api.Fulfilled accepted.

(** A roster of one member, and the answers used in the examples. *)
Definition alice : Api.RideMember :=
  {| Api.member_id := "1";
     Api.user := {| Api.user_id := "u-1"; Api.user_username := "alice";
                    Api.user_email := "alice@example.org"; Api.user_name := "Alice" |};
     Api.status := "on-route";
     Api.latitude := Some (37 # 1)%Q;
     Api.longitude := Some (-122 # 1)%Q;
     Api.lastLocationUpdate := Some "2024-01-01T00:00:00Z" |}.

Definition roster (ok : bool) (l : list Api.RideMember) : Api.ApiResponse (list Api.RideMember) :=
  {| Api.success := ok; Api.data := l;
     Api.resp_message := None; Api.resp_timestamp := "2024-01-01T00:00:00Z" |}.

Definition polled : RealTimeUpdates.State :=
  {| RealTimeUpdates.members := [alice];
     RealTimeUpdates.isConnected := true;
     RealTimeUpdates.error := None;
     RealTimeUpdates.lastUpdate := Some 1700000000000 |}.

(** A member who has reported no position. *)
Definition bob : Api.RideMember :=
  {| Api.member_id := "2";
     Api.user := {| Api.user_id := "u-2"; Api.user_username := "bob";
                    Api.user_email := "bob@example.org"; Api.user_name := "Bob" |};
     Api.status := "waiting";
     Api.latitude := None;
     Api.longitude := None;
     Api.lastLocationUpdate := None |}.

(** A date parser that knows one timestamp, and a moment six minutes later. *)
Definition parseDate (text : string) : option Z :=
  if decide (text = "2024-01-01T00:00:00Z") then Some 1704067200000 else None.

Definition sixMinutesLater : Z := 1704067200000 + 6 * 60 * 1000.

(** A time formatter: the text the date was built from. *)
Definition showTime (d : Date) : string :=
  match d with
  | Date_ms ms => Z_toString ms
  | Date_text s => s
  end.

(** Alice as GoogleMap receives her. *)
Definition rider : GoogleMap.Member :=
  {| GoogleMap.id := "1"; GoogleMap.name := "Alice"; GoogleMap.username := "alice";
     GoogleMap.status := "on-route";
     GoogleMap.location := {| GoogleMap.lat := (37 # 1)%Q; GoogleMap.lng := (-122 # 1)%Q |};
     GoogleMap.lastUpdate := Date_text "2024-01-01T00:00:00Z" |}.

(** A position sample used in the examples. *)
Definition fix1 : LocationSync.GeolocationPosition :=
  {| LocationSync.coords_latitude := (37 # 1)%Q;
     LocationSync.coords_longitude := (-122 # 1)%Q;
     LocationSync.coords_accuracy := (5 # 1)%Q |}.


(* ------------------------------------------------------------------ *)
(** ** Further definitions used to state properties, and their examples *)
(* ------------------------------------------------------------------ *)

Definition twoServerAlerts : Api.ApiResponse (list Api.Alert) :=
  {| Api.success := true;
     Api.data := [ Api.data accepted ];
     Api.resp_message := None;
     Api.resp_timestamp := "2024-01-01T00:00:00Z" |}.

(** What a predefined alert leaves in the local list when server sync is on
    and the backend accepts: its own alert, expiring after 5000 ms, and the
    sender's copy of the same message, which never expires. *)
Definition shownTwice (kind : AlertSystem.AlertType) (message : string)
    (st st' : AlertSystem.State) : Prop :=
  exists own copy,
    AlertSystem.alerts st' = AlertSystem.alerts st ++ [own; copy]
    /\ AlertSystem.type own = kind
    /\ AlertSystem.message own = message
    /\ AlertSystem.duration own = Some 5000
    /\ AlertSystem.type copy = AlertSystem.info
    /\ AlertSystem.message copy = message
    /\ AlertSystem.duration copy = Some 0
    /\ AlertSystem.timers st'
       = AlertSystem.timers st
         ++ [ {| AlertSystem.timer_id := AlertSystem.id own;
                 AlertSystem.timer_delay := 5000 |} ].

(** What can happen to a mounted alert hook. *)
Inductive AlertAction :=
| do_addAlert (e : AlertSystem.Env) (message : string)
    (type_arg : option AlertSystem.AlertType) (duration_arg : option Z)
| do_removeAlert (i : string)
| do_clearAllAlerts
| do_timer (n : nat)
| do_sendServerAlert (e : AlertSystem.Env) (message : string) (type : Api.AlertType)
    (severity_arg : option Api.Severity) (settled : Api.Settled Api.Alert)
| do_sendEmergencyAlert (e : AlertSystem.Env) (message : string)
    (settled : Api.Settled Api.Alert)
| do_fetchServerAlerts (settled : Api.Settled (list Api.Alert)).

(** One action on the hook called with [rideId] and [enableServerSync];
    [do_timer n] is the n-th registered timer firing. *)
Definition alertStep (rideId : option string) (enableServerSync : bool)
    (st : AlertSystem.State) (a : AlertAction) : AlertSystem.State :=
  match a with
  | do_addAlert e message type_arg duration_arg =>
      (AlertSystem.addAlert rideId e message type_arg duration_arg st).2
  | do_removeAlert i => AlertSystem.removeAlert i st
  | do_clearAllAlerts => AlertSystem.clearAllAlerts st
  | do_timer n =>
      match AlertSystem.timers st !! n with
      | Some t => AlertSystem.fireTimer t st
      | None => st
      end
  | do_sendServerAlert e message type severity_arg settled =>
      (runTask (fun _ => settled)
         (AlertSystem.sendServerAlert rideId e message type severity_arg) st).1
  | do_sendEmergencyAlert e message settled =>
      (runTask (fun _ => settled) (AlertSystem.sendEmergencyAlert rideId e message) st).1
  | do_fetchServerAlerts settled =>
      (runTask (fun _ => settled)
         (AlertSystem.fetchServerAlerts rideId enableServerSync) st).1
  end.

(** Every timer has a positive delay, and every local alert has a duration
    and, when it is positive, its timer. *)
Definition timersArmed (st : AlertSystem.State) : Prop :=
  (forall t, t ∈ AlertSystem.timers st -> AlertSystem.timer_delay t > 0)
  /\ (forall a, a ∈ AlertSystem.alerts st ->
        exists d, AlertSystem.duration a = Some d
                  /\ (d > 0 ->
                      {| AlertSystem.timer_id := AlertSystem.id a;
                         AlertSystem.timer_delay := d |} ∈ AlertSystem.timers st)).

(** A run of fetches, oldest first, each with the time its response came in. *)
Definition poll (rideId : string)
    (fetches : list (Api.Settled (list Api.RideMember) * Z))
    (st : RealTimeUpdates.State) : RealTimeUpdates.State :=
  fold_left
    (fun st fetch =>
       (runTask (fun _ => fetch.1) (RealTimeUpdates.fetchUpdates rideId fetch.2) st).1)
    fetches st.

(** The roster and time of a fetch that succeeded. *)
Definition goodFetch (fetch : Api.Settled (list Api.RideMember) * Z)
    : option (list Api.RideMember * Z) :=
  match fetch.1 with
  | Api.Fulfilled response =>
      if Api.success response then Some (Api.data response, fetch.2) else None
  | Api.Rejected => None
  end.

(** The watch and the sync interval are registered together, and only while
    tracking with geolocation available. *)
Definition resourcesOwned (geolocation : bool) (c : LocationSync.Config) : Prop :=
  (LocationSync.watch (LocationSync.runtime c) = true
   <-> is_Some (LocationSync.syncInterval (LocationSync.runtime c)))
  /\ (LocationSync.watch (LocationSync.runtime c) = true ->
      LocationSync.isTracking (LocationSync.state c) = true /\ geolocation = true).

(** Nothing was ever requested from the browser or the backend, and while
    [isTracking] is set the unsupported-browser error is shown. *)
Definition idleWithoutGeolocation (c : LocationSync.Config) : Prop :=
  LocationSync.runtime c = LocationSync.runtime LocationSync.initial
  /\ LocationSync.currentLocation (LocationSync.state c) = None
  /\ LocationSync.lastSyncTime (LocationSync.state c) = None
  /\ (LocationSync.isTracking (LocationSync.state c) = true ->
      LocationSync.error (LocationSync.state c)
      = Some "Geolocation is not supported by this browser").

(** The message [handleError] shows for an error code. *)
Definition geolocationErrorMessage (code : Z) : string :=
  match code with
  | 1 => "Location access denied by user"
  | 2 => "Location information unavailable"
  | 3 => "Location request timed out"
  | _ => "Unable to get location"
  end.

(** The hook right after tracking was switched on. *)
Definition tracking : LocationSync.Config :=
  LocationSync.requestTracking true LocationSync.initial.

(** An upload answer, accepted or not. *)
Definition uploadAnswer (ok : bool) : Api.ApiResponse unit :=
  {| Api.success := ok; Api.data := tt;
     Api.resp_message := None; Api.resp_timestamp := "2024-01-01T00:00:06Z" |}.

(** The hook after the watch has delivered a first sample. *)
Definition uploading : LocationSync.Config :=
  LocationSync.handleSuccess true fix1 "t1" tracking.

(** The sample [handleSuccess] stores for a position. *)
Definition sampleOf (position : LocationSync.GeolocationPosition) (iso : string)
    : LocationSync.LocationData :=
  {| LocationSync.latitude := LocationSync.coords_latitude position;
     LocationSync.longitude := LocationSync.coords_longitude position;
     LocationSync.accuracy := Some (LocationSync.coords_accuracy position);
     LocationSync.timestamp := iso |}.

(** Alice after she has arrived, somewhere else. *)
Definition riderArrived : GoogleMap.Member :=
  {| GoogleMap.id := "1"; GoogleMap.name := "Alice"; GoogleMap.username := "alice";
     GoogleMap.status := "arrived";
     GoogleMap.location := {| GoogleMap.lat := (38 # 1)%Q; GoogleMap.lng := (-121 # 1)%Q |};
     GoogleMap.lastUpdate := Date_text "2024-01-01T00:10:00Z" |}.

(** A local info alert, used in the examples. *)
Definition notice : AlertSystem.Alert :=
  {| AlertSystem.id := "1700000000000k3x9q2m7a";
     AlertSystem.message := "Alice arrived";
     AlertSystem.type := AlertSystem.info;
     AlertSystem.timestamp := Date_ms 1700000000000;
     AlertSystem.duration := Some 5000;
     AlertSystem.rideId := Some "ride-1";
     AlertSystem.severity := None |}.

(** The hook holding one mirrored emergency alert and no local alert. *)
Definition mirroredEmergency : AlertSystem.State :=
  {| AlertSystem.alerts := [];
     AlertSystem.serverAlerts := [Api.data accepted];
     AlertSystem.timers := [] |}.

(** The token held by the client and the two stored tokens. *)
Definition clientToken (st : Auth.State) : option string :=
  ApiClient.token (ApiClient.client (Auth.api st)).

Definition stored (key : string) (st : Auth.State) : option string :=
  ApiClient.localStorage (Auth.api st) !! key.

(** A page reload: the provider's initial state cells and a new client built
    over the same [localStorage]. *)
Definition reload (st : Auth.State) : Auth.State :=
  {| Auth.user := None;
     Auth.isLoading := true;
     Auth.api :=
       ApiClient.new true (ApiClient.baseUrl (ApiClient.client (Auth.api st)))
         (ApiClient.localStorage (Auth.api st)) |}.

(** A user, a login answer and a logged-out provider, for the examples. *)
Definition aliceUser : Api.User :=
  {| Api.user_id := "u-1"; Api.user_username := "alice";
     Api.user_email := "alice@example.org"; Api.user_name := "Alice" |}.

Definition loginOk : Api.ApiResponse Auth.LoginData :=
  {| Api.success := true;
     Api.data := {| Auth.login_token := "tok";
                    Auth.login_refreshToken := Some "ref";
                    Auth.login_user := aliceUser |};
     Api.resp_message := None;
     Api.resp_timestamp := "2024-01-01T00:00:00Z" |}.

Definition loggedOut : Auth.State :=
  {| Auth.user := None;
     Auth.isLoading := false;
     Auth.api := ApiClient.new true "http://localhost:8080" ∅ |}.

Definition registrationRefused : Api.ApiResponse Api.User :=
  {| Api.success := false; Api.data := aliceUser;
     Api.resp_message := Some "Username taken";
     Api.resp_timestamp := "2024-01-01T00:00:00Z" |}.

Definition profileOk : Api.ApiResponse Api.User :=
  {| Api.success := true; Api.data := aliceUser;
     Api.resp_message := None; Api.resp_timestamp := "2024-01-01T00:05:00Z" |}.

(* ================================================================== *)
(** * Properties *)
(* ================================================================== *)

(** ** The Alert Engine *)

(** The alert [addAlert] builds from its arguments and the runtime. *)
Lemma addAlert_alerts rideId e message type_arg duration_arg st :
  AlertSystem.alerts (AlertSystem.addAlert rideId e message type_arg duration_arg st).2
  = AlertSystem.alerts st ++
    [ {| AlertSystem.id := Z_toString (AlertSystem.Date_now e) +:+ AlertSystem.Math_random e;
         AlertSystem.message := message;
         AlertSystem.type := default AlertSystem.info type_arg;
         AlertSystem.timestamp := Date_ms (AlertSystem.new_Date e);
         AlertSystem.duration := Some (default 5000 duration_arg);
         AlertSystem.rideId := rideId;
         AlertSystem.severity := None |} ].
Proof.
  unfold AlertSystem.addAlert. cbn.
  case_bool_decide; reflexivity.
Qed.

(** [addAlert] registers a timer exactly when the duration is positive. *)
Lemma addAlert_timers rideId e message type_arg duration_arg st :
  AlertSystem.timers (AlertSystem.addAlert rideId e message type_arg duration_arg st).2
  = if bool_decide (default 5000 duration_arg > 0)
    then AlertSystem.timers st ++
         [ {| AlertSystem.timer_id :=
                Z_toString (AlertSystem.Date_now e) +:+ AlertSystem.Math_random e;
              AlertSystem.timer_delay := default 5000 duration_arg |} ]
    else AlertSystem.timers st.
Proof.
  unfold AlertSystem.addAlert. cbn.
  case_bool_decide; reflexivity.
Qed.

Lemma addAlert_serverAlerts rideId e message type_arg duration_arg st :
  AlertSystem.serverAlerts (AlertSystem.addAlert rideId e message type_arg duration_arg st).2
  = AlertSystem.serverAlerts st.
Proof.
  unfold AlertSystem.addAlert. cbn.
  case_bool_decide; reflexivity.
Qed.

(** For every call of [addAlert] with category [emergency]: the alert stored
    has the duration the caller asked for (5000 ms when none is given), and
    when that duration is positive exactly one timer is registered, for the
    new alert and with that delay. Nothing sets the duration to 0. *)
Lemma addAlert_emergency_stores_request rideId e message duration_arg st :
  let r := AlertSystem.addAlert rideId e message (Some AlertSystem.emergency) duration_arg st in
  (exists alert,
      AlertSystem.alerts r.2 = AlertSystem.alerts st ++ [alert]
      /\ AlertSystem.id alert = r.1
      /\ AlertSystem.type alert = AlertSystem.emergency
      /\ AlertSystem.duration alert = Some (default 5000 duration_arg))
  /\ AlertSystem.timers r.2
     = if bool_decide (default 5000 duration_arg > 0)
       then AlertSystem.timers st
            ++ [ {| AlertSystem.timer_id := r.1;
                    AlertSystem.timer_delay := default 5000 duration_arg |} ]
       else AlertSystem.timers st.
Proof.
  cbv zeta. rewrite addAlert_alerts, addAlert_timers.
  split; [| reflexivity].
  eexists. split; [reflexivity |]. repeat split; reflexivity.
Qed.

(** C1: [addAlert("help", "emergency")] and [addAlert("help", "emergency", 3000)]
    on ride "ride-1", from the empty state. The emergency alert is stored
    with duration 5000, respectively 3000, not 0; a timer with that delay is
    registered for it; and when the timer fires the emergency alert is
    removed from the visible set. *)
Theorem addAlert_emergency_auto_expires :
  let byDefault := AlertSystem.addAlert (Some "ride-1") env0 "help"
                     (Some AlertSystem.emergency) None AlertSystem.initial in
  let asked := AlertSystem.addAlert (Some "ride-1") env0 "help"
                 (Some AlertSystem.emergency) (Some 3000) AlertSystem.initial in
  ((fun a => (AlertSystem.id a, AlertSystem.type a, AlertSystem.duration a))
     <$> AlertSystem.alerts byDefault.2
   = [ (byDefault.1, AlertSystem.emergency, Some 5000) ]
   /\ AlertSystem.timers byDefault.2
      = [ {| AlertSystem.timer_id := byDefault.1; AlertSystem.timer_delay := 5000 |} ]
   /\ AlertSystem.alerts
        (AlertSystem.fireTimer
           {| AlertSystem.timer_id := byDefault.1; AlertSystem.timer_delay := 5000 |}
           byDefault.2) = [])
  /\ ((fun a => (AlertSystem.id a, AlertSystem.type a, AlertSystem.duration a))
        <$> AlertSystem.alerts asked.2
      = [ (asked.1, AlertSystem.emergency, Some 3000) ]
      /\ AlertSystem.timers asked.2
         = [ {| AlertSystem.timer_id := asked.1; AlertSystem.timer_delay := 3000 |} ]
      /\ AlertSystem.alerts
           (AlertSystem.fireTimer
              {| AlertSystem.timer_id := asked.1; AlertSystem.timer_delay := 3000 |}
              asked.2) = []).
Proof. repeat split; vm_compute; reflexivity. Qed.

(** What [sendServerAlert] does when the backend answers [success: false]:
    the continuation leaves the state as it is. *)
Lemma sendServerAlert_success_false rideId e message type severity_arg response st :
  Api.success response = false ->
  (runTask (fun _ => Api.Fulfilled response)
     (AlertSystem.sendServerAlert rideId e message type severity_arg) st).1 = st.
Proof.
  intros Hs. unfold AlertSystem.sendServerAlert.
  destruct rideId as [r|]; cbn; [| reflexivity].
  destruct (negb (String.eqb r "")); cbn; [| reflexivity].
  rewrite Hs. reflexivity.
Qed.

(** C2: [sendServerAlert("Road closed", "traffic")] on ride "ride-1", with the
    backend answering [success: false]: the call is made and no local alert
    at all is added, of category [error] or otherwise. *)
Theorem sendServerAlert_rejected_adds_no_alert :
  runTask refusing
    (AlertSystem.sendServerAlert (Some "ride-1") env0 "Road closed" Api.traffic None)
    AlertSystem.initial
  = (AlertSystem.initial,
     [ Api.call_sendAlert {| Api.body_rideId := "ride-1";
                             Api.body_type := Api.traffic;
                             Api.body_message := "Road closed";
                             Api.body_severity := Api.medium |} ])
  ∧ filter (fun a => AlertSystem.type a = AlertSystem.error)
      (AlertSystem.alerts
         (runTask refusing
            (AlertSystem.sendServerAlert (Some "ride-1") env0 "Road closed" Api.traffic None)
            AlertSystem.initial).1) = [].
Proof. split; reflexivity. Qed.

(** The sibling path: when the promise rejects, [sendServerAlert] does add one
    [error] alert. *)
Lemma sendServerAlert_rejected_promise rideId e message type severity_arg st :
  truthy rideId = true ->
  exists alert,
    AlertSystem.alerts
      (runTask (fun _ => Api.Rejected)
         (AlertSystem.sendServerAlert rideId e message type severity_arg) st).1
    = AlertSystem.alerts st ++ [alert]
    ∧ AlertSystem.type alert = AlertSystem.error
    ∧ AlertSystem.message alert = "Failed to send alert to server".
Proof.
  intros Ht. unfold AlertSystem.sendServerAlert.
  destruct rideId as [r|]; [| discriminate]. rewrite Ht. cbn [runTask fst].
  rewrite addAlert_alerts. eexists. split; [reflexivity |]. split; reflexivity.
Qed.

(** C5: [sendEmergencyAlert(message)] on a configured ride, the backend
    answering [success: true]: one call, to the emergency endpoint with type
    [emergency] and severity [critical]; exactly one local alert is added, of
    category [emergency], with message ["EMERGENCY: " + message] and duration
    0; no timer is registered. *)
Theorem sendEmergencyAlert_success :
  forall rideId e message response st,
    truthy (Some rideId) = true ->
    Api.success response = true ->
    let r := runTask (fun _ => Api.Fulfilled response)
               (AlertSystem.sendEmergencyAlert (Some rideId) e message) st in
    r.2 = [Api.call_sendEmergencyAlert rideId message]
    ∧ Api.request_of (Api.call_sendEmergencyAlert rideId message)
      = Some {| Api.endpoint := "/api/v1/alerts/emergency";
                Api.method := "POST";
                Api.body := Some {| Api.body_rideId := rideId;
                                    Api.body_type := Api.emergency;
                                    Api.body_message := message;
                                    Api.body_severity := Api.critical |} |}
    ∧ (exists alert,
          AlertSystem.alerts r.1 = AlertSystem.alerts st ++ [alert]
          ∧ AlertSystem.type alert = AlertSystem.emergency
          ∧ AlertSystem.message alert = "EMERGENCY: " +:+ message
          ∧ AlertSystem.duration alert = Some 0)
    ∧ AlertSystem.timers r.1 = AlertSystem.timers st
    ∧ AlertSystem.serverAlerts r.1 = AlertSystem.serverAlerts st.
Proof.
  intros rideId e message response st Ht Hs r. subst r.
  unfold AlertSystem.sendEmergencyAlert. rewrite Ht.
  cbn [runTask fst snd]. rewrite Hs.
  rewrite addAlert_alerts, addAlert_timers, addAlert_serverAlerts.
  repeat split; try reflexivity.
  eexists. split; [reflexivity |]. repeat split; reflexivity.
Qed.

Lemma sendEmergencyAlert_success_witness :
  let r := runTask accepting
             (AlertSystem.sendEmergencyAlert (Some "ride-1") env0 "help")
             AlertSystem.initial in
  (exists alert,
      AlertSystem.alerts r.1 = [] ++ [alert]
      ∧ AlertSystem.type alert = AlertSystem.emergency
      ∧ AlertSystem.message alert = "EMERGENCY: help"
      ∧ AlertSystem.duration alert = Some 0)
  ∧ AlertSystem.timers r.1 = [].
Proof.
  pose proof (sendEmergencyAlert_success "ride-1" env0 "help" accepted AlertSystem.initial
                eq_refl eq_refl) as H.
  cbv zeta in H. destruct H as (_ & _ & Ha & Ht & _).
  split; [exact Ha | exact Ht].
Defined.

(** C9: without a ride identifier, [sendServerAlert] and [sendEmergencyAlert]
    return at once: no backend call is made and the alert state is the one
    before the call. *)
Theorem senders_without_ride :
  forall rideId, truthy rideId = false ->
  forall e message type severity_arg backend st,
    AlertSystem.sendServerAlert rideId e message type severity_arg = Return
    ∧ AlertSystem.sendEmergencyAlert rideId e message = Return
    ∧ runTask backend (AlertSystem.sendServerAlert rideId e message type severity_arg) st
      = (st, [])
    ∧ runTask backend (AlertSystem.sendEmergencyAlert rideId e message) st = (st, []).
Proof.
  intros rideId Ht e message type severity_arg backend st.
  unfold AlertSystem.sendServerAlert, AlertSystem.sendEmergencyAlert.
  rewrite Ht. destruct rideId; repeat split; reflexivity.
Qed.

Lemma senders_without_ride_witness :
  runTask accepting (AlertSystem.sendServerAlert None env0 "Road closed" Api.traffic None)
    AlertSystem.initial = (AlertSystem.initial, [])
  ∧ runTask accepting (AlertSystem.sendEmergencyAlert None env0 "help")
      AlertSystem.initial = (AlertSystem.initial, []).
Proof.
  destruct (senders_without_ride None eq_refl env0 "Road closed" Api.traffic None
              accepting AlertSystem.initial) as (_ & _ & H1 & _).
  destruct (senders_without_ride None eq_refl env0 "help" Api.traffic None
              accepting AlertSystem.initial) as (_ & _ & _ & H2).
  split; [exact H1 | exact H2].
Defined.

(** C10: after [clearAllAlerts] the local alert list is empty and the server
    alert list is untouched: the merged view is exactly the server part of
    the view before, every mirrored server alert unchanged and in place. *)
Theorem clearAllAlerts_keeps_server_alerts :
  forall st,
    AlertSystem.alerts (AlertSystem.clearAllAlerts st) = []
    ∧ AlertSystem.serverAlerts (AlertSystem.clearAllAlerts st) = AlertSystem.serverAlerts st
    ∧ AlertSystem.allAlerts (AlertSystem.clearAllAlerts st)
      = AlertSystem.ofServerAlert <$> AlertSystem.serverAlerts st
    ∧ AlertSystem.allAlerts st
      = AlertSystem.alerts st ++ AlertSystem.allAlerts (AlertSystem.clearAllAlerts st).
Proof.
  intros st. unfold AlertSystem.allAlerts, AlertSystem.clearAllAlerts. cbn.
  repeat split; reflexivity.
Qed.

(** ** The Presence Poller *)

(** C4: a failed fetch sets [isConnected] to false and records an error, and
    keeps the member snapshot (and the time of the last update) it found; a
    successful one replaces the snapshot by the response data, sets
    [isConnected] to true and clears the error. *)
Theorem fetchUpdates_outcome :
  forall rideId now settled st,
    let r := runTask (fun _ => settled) (RealTimeUpdates.fetchUpdates rideId now) st in
    r.2 = [Api.call_getRideMembers rideId]
    ∧ (fetchFailed settled = true ->
       RealTimeUpdates.isConnected r.1 = false
       ∧ is_Some (RealTimeUpdates.error r.1)
       ∧ RealTimeUpdates.members r.1 = RealTimeUpdates.members st
       ∧ RealTimeUpdates.lastUpdate r.1 = RealTimeUpdates.lastUpdate st)
    ∧ (forall response,
         settled = Api.Fulfilled response -> Api.success response = true ->
         RealTimeUpdates.members r.1 = Api.data response
         ∧ RealTimeUpdates.isConnected r.1 = true
         ∧ RealTimeUpdates.error r.1 = None
         ∧ RealTimeUpdates.lastUpdate r.1 = Some now).
Proof.
  intros rideId now settled st r. subst r. cbn [runTask RealTimeUpdates.fetchUpdates fst snd].
  split; [reflexivity |]. split.
  - destruct settled as [response|]; cbn.
    + destruct (Api.success response); [discriminate |]. intros _. cbn. eauto.
    + intros _. eauto.
  - intros response -> Hs. rewrite Hs. cbn. eauto.
Qed.

Lemma fetchUpdates_outcome_witness :
  (let r := runTask (fun _ => Api.Fulfilled (roster false []))
              (RealTimeUpdates.fetchUpdates "ride-1" 1700000003000) polled in
   RealTimeUpdates.isConnected r.1 = false
   ∧ is_Some (RealTimeUpdates.error r.1)
   ∧ RealTimeUpdates.members r.1 = [alice]
   ∧ RealTimeUpdates.lastUpdate r.1 = Some 1700000000000)
  ∧ (let r := runTask (fun _ => Api.Fulfilled (roster true []))
                (RealTimeUpdates.fetchUpdates "ride-1" 1700000003000) polled in
     RealTimeUpdates.members r.1 = []
     ∧ RealTimeUpdates.isConnected r.1 = true
     ∧ RealTimeUpdates.error r.1 = None
     ∧ RealTimeUpdates.lastUpdate r.1 = Some 1700000003000).
Proof.
  split.
  - exact (proj1 (proj2 (fetchUpdates_outcome "ride-1" 1700000003000
                           (Api.Fulfilled (roster false [])) polled)) eq_refl).
  - exact (proj2 (proj2 (fetchUpdates_outcome "ride-1" 1700000003000
                           (Api.Fulfilled (roster true [])) polled))
             (roster true []) eq_refl eq_refl).
Defined.

(** ** Position Capture *)

(** Once [isTracking] is false, only [StartTracking] sets it again. *)
Lemma step_keeps_not_tracking geolocation ev c c' :
  ev <> LocationSync.StartTracking ->
  LocationSync.isTracking (LocationSync.state c) = false ->
  LocationSync.step geolocation ev c = Some c' ->
  LocationSync.isTracking (LocationSync.state c') = false.
Proof.
  intros Hev Hf Hs.
  destruct c as [st rt]. cbn in Hf.
  destruct ev; [congruence | | | | | | |]; cbn in Hs.
  - unfold LocationSync.stopTracking in Hs. cbn in Hs. rewrite Hf in Hs. cbn in Hs.
    case_bool_decide; inversion Hs; subst; cbn; reflexivity.
  - destruct (LocationSync.pendingPosition rt); [discriminate |].
    inversion Hs; subst. unfold LocationSync.handleSuccess, LocationSync.effect. cbn.
    rewrite Hf. cbn. exact Hf.
  - destruct (LocationSync.pendingPosition rt); [discriminate |].
    inversion Hs; subst. unfold LocationSync.handleError. cbn. rewrite Hf. reflexivity.
  - destruct (LocationSync.watch rt); [| discriminate].
    inversion Hs; subst. unfold LocationSync.handleSuccess, LocationSync.effect. cbn.
    rewrite Hf. cbn. exact Hf.
  - destruct (LocationSync.watch rt); [| discriminate].
    inversion Hs; subst. unfold LocationSync.handleError. cbn. rewrite Hf. reflexivity.
  - destruct (LocationSync.syncInterval rt) as [[loc|]|]; inversion Hs; subst; exact Hf.
  - destruct (LocationSync.uploads rt); [discriminate |].
    inversion Hs; subst. cbn.
    destruct settled as [response|]; cbn; [destruct (Api.success response) |]; exact Hf.
Qed.

(** After [stopTracking], [isTracking] is false. *)
Lemma stopTracking_not_tracking geolocation c :
  LocationSync.isTracking (LocationSync.state (LocationSync.stopTracking geolocation c)) = false.
Proof.
  unfold LocationSync.stopTracking.
  destruct (_ || _); cbn; [unfold LocationSync.effect; cbn |]; reflexivity.
Qed.

(** [stopTracking] clears the state cells, and the cleanup it triggers
    removes the watch and the interval; position requests already made stay
    pending. *)
Lemma stopTracking_clears geolocation c :
  let c' := LocationSync.stopTracking geolocation c in
  LocationSync.currentLocation (LocationSync.state c') = None
  /\ LocationSync.error (LocationSync.state c') = None
  /\ LocationSync.pendingPosition (LocationSync.runtime c')
     = LocationSync.pendingPosition (LocationSync.runtime c)
  /\ (LocationSync.isTracking (LocationSync.state c) = true ->
      LocationSync.watch (LocationSync.runtime c') = false
      /\ LocationSync.syncInterval (LocationSync.runtime c') = None).
Proof.
  unfold LocationSync.stopTracking.
  destruct (LocationSync.isTracking (LocationSync.state c)) eqn:Ht; cbn.
  - unfold LocationSync.effect. cbn. auto.
  - case_bool_decide; cbn; [unfold LocationSync.effect; cbn |];
      (repeat split; try reflexivity; discriminate).
Qed.

(** No trace without [StartTracking] brings [isTracking] back. *)
Lemma run_keeps_not_tracking geolocation trace : forall c c',
  Forall (fun ev => ev <> LocationSync.StartTracking) trace ->
  LocationSync.isTracking (LocationSync.state c) = false ->
  LocationSync.run geolocation trace c = Some c' ->
  LocationSync.isTracking (LocationSync.state c') = false.
Proof.
  induction trace as [| ev trace IH]; intros c c' Hall Hf Hr; cbn in Hr.
  - inversion Hr; subst. exact Hf.
  - inversion Hall as [| ? ? Hev Hrest]; subst.
    destruct (LocationSync.step geolocation ev c) as [c1|] eqn:Hs; [| discriminate].
    cbn in Hr. eapply IH; [exact Hrest | | exact Hr].
    eapply step_keeps_not_tracking; eauto.
Qed.

(** C6: start tracking, stop while the first [getCurrentPosition] request is
    still unanswered, then let the request succeed. Tracking stays off, the
    watch and the interval are gone, yet [currentLocation] holds the late
    sample and an upload of it is in flight. *)
Theorem stopTracking_then_late_position :
  LocationSync.run true
    [ LocationSync.StartTracking;
      LocationSync.StopTracking;
      LocationSync.CurrentPosition fix1 "2024-01-01T00:00:05.000Z" ]
    LocationSync.initial
  = Some
      {| LocationSync.state :=
           {| LocationSync.isTracking := false;
              LocationSync.currentLocation :=
                Some {| LocationSync.latitude := (37 # 1)%Q;
                        LocationSync.longitude := (-122 # 1)%Q;
                        LocationSync.accuracy := Some (5 # 1)%Q;
                        LocationSync.timestamp := "2024-01-01T00:00:05.000Z" |};
              LocationSync.error := None;
              LocationSync.lastSyncTime := None |};
         LocationSync.runtime :=
           {| LocationSync.watch := false;
              LocationSync.syncInterval := None;
              LocationSync.pendingPosition := 0;
              LocationSync.uploads :=
                [ {| LocationSync.latitude := (37 # 1)%Q;
                     LocationSync.longitude := (-122 # 1)%Q;
                     LocationSync.accuracy := Some (5 # 1)%Q;
                     LocationSync.timestamp := "2024-01-01T00:00:05.000Z" |} ] |} |}.
Proof. reflexivity. Qed.

(** ** The Marker Reconciler *)

(** The call one turn of the second loop adds. *)
Lemma upsert_ops tl acc m :
  (GoogleMap.upsert tl acc m).2
  = acc.2 ++ [ match acc.1 !! GoogleMap.id m with
               | Some _ => GoogleMap.SetPosition (GoogleMap.id m) (GoogleMap.location m)
               | None => GoogleMap.Create (GoogleMap.id m) (GoogleMap.newMarker tl m)
               end ].
Proof. unfold GoogleMap.upsert. destruct (acc.1 !! GoogleMap.id m); reflexivity. Qed.

Section MarkerFacts.
Import GoogleMap.
Variable tl : Date -> string.

(** The entry of [k] after one turn of the second loop. *)
Lemma upsert_lookup acc m k :
  (upsert tl acc m).1 !! k
  = if decide (id m = k) then touch tl (acc.1 !! k) m else acc.1 !! k.
Proof.
  unfold upsert, touch.
  case_decide as Hk.
  - subst k. destruct (acc.1 !! id m) as [e|] eqn:He; cbn; rewrite lookup_insert_eq; reflexivity.
  - destruct (acc.1 !! id m) as [e|] eqn:He; cbn; rewrite lookup_insert_ne by done; reflexivity.
Qed.

(** The entry of [k] after the second loop: the members with id [k] have
    touched it, in list order. *)
Lemma fold_upsert_lookup ms : forall acc k,
  (fold_left (upsert tl) ms acc).1 !! k
  = fold_left (touch tl) (filter (fun m => id m = k) ms) (acc.1 !! k).
Proof.
  induction ms as [| m ms IH]; intros acc k; cbn [fold_left].
  - reflexivity.
  - rewrite IH, upsert_lookup.
    case_decide as Hk.
    + rewrite filter_cons_True by done. reflexivity.
    + rewrite filter_cons_False by done. reflexivity.
Qed.

Lemma setPosition_setPosition p q e : setPosition p (setPosition q e) = setPosition p e.
Proof. reflexivity. Qed.

Lemma setPosition_position e : setPosition (position e) e = e.
Proof. destruct e; reflexivity. Qed.

Lemma fold_touch_Some l : forall e,
  exists p, fold_left (touch tl) l (Some e) = Some (setPosition p e).
Proof.
  induction l as [| m l IH]; intros e; cbn [fold_left].
  - exists (position e). by rewrite setPosition_position.
  - change (touch tl (Some e) m) with (Some (setPosition (location m) e)).
    destruct (IH (setPosition (location m) e)) as [p Hp].
    exists p. rewrite Hp. reflexivity.
Qed.

Lemma fold_touch_snoc l m o :
  exists e, fold_left (touch tl) (l ++ [m]) o = Some e /\ position e = location m.
Proof.
  rewrite fold_left_app. cbn [fold_left]. unfold touch at 1.
  eexists. split; [reflexivity |].
  destruct (fold_left (touch tl) l o); reflexivity.
Qed.

(** Touching an entry with the same members again changes nothing. *)
Lemma fold_touch_twice l o :
  fold_left (touch tl) l (fold_left (touch tl) l o) = fold_left (touch tl) l o.
Proof.
  destruct l as [| m l _] using rev_ind; [reflexivity |].
  destruct (fold_touch_snoc l m o) as (e & He & Hp).
  rewrite He. rewrite fold_left_app. cbn [fold_left].
  destruct (fold_touch_Some l e) as [p Hq]. rewrite Hq.
  unfold touch. rewrite setPosition_setPosition, <- Hp, setPosition_position. reflexivity.
Qed.

Lemma listed_filter members k :
  listed members k <-> filter (fun m => id m = k) members <> [].
Proof.
  unfold listed. induction members as [| m ms IH]; cbn [find].
  - split; [intros [? ?]; discriminate | done].
  - case_bool_decide as Hk.
    + rewrite filter_cons_True by done. split; [done | eauto].
    + rewrite filter_cons_False by done. exact IH.
Qed.


Lemma removeStale_lookup members markers k :
  (removeStale members markers).1 !! k
  = if decide (listed members k) then markers !! k else None.
Proof.
  unfold removeStale. cbn [fst].
  destruct (markers !! k) as [e|] eqn:He.
  - case_decide as Hl.
    + apply map_lookup_filter_Some. split; [exact He | exact Hl].
    + apply map_lookup_filter_None. right. intros e' He' Hl'. exact (Hl Hl').
  - case_decide; apply map_lookup_filter_None; left; exact He.
Qed.

(** The first loop removes nothing when every marker has a member. *)
Lemma removeStale_all_listed members markers :
  (forall k, is_Some (markers !! k) -> listed members k) ->
  removeStale members markers = (markers, []).
Proof.
  intros Hall. unfold removeStale. f_equal.
  - apply map_filter_id. intros k e He. apply Hall. exists e. exact He.
  - replace (filter (fun entry => ¬ listed members entry.1) markers)
      with (∅ : gmap string Marker).
    + rewrite map_to_list_empty. reflexivity.
    + symmetry. apply map_empty. intros k.
      apply map_lookup_filter_None. right. intros e He Hn.
      apply Hn. apply Hall. exists e. exact He.
Qed.

(** The second loop only moves markers when every member has one. *)
Lemma fold_upsert_ops_present ms : forall acc,
  (forall m, m ∈ ms -> is_Some (acc.1 !! id m)) ->
  (fold_left (upsert tl) ms acc).2
  = acc.2 ++ ((fun m => SetPosition (id m) (location m)) <$> ms).
Proof.
  induction ms as [| m ms IH]; intros acc Hall; cbn [fold_left fmap list_fmap].
  - by rewrite app_nil_r.
  - rewrite IH.
    + rewrite (upsert_ops tl). destruct (Hall m) as [e He]; [left |].
      rewrite He. by rewrite <- app_assoc.
    + intros m' Hm'. rewrite upsert_lookup. case_decide; [unfold touch; eauto |].
      apply Hall. by right.
Qed.

(** C3 (amended): a second run of [updateMarkers] on the same member list
    leaves the marker store exactly as the first run left it; it creates no
    marker and removes none, and calls [setPosition] once per listed member
    (and [fitBounds] again when the list is not empty). *)
Theorem updateMarkers_second_pass mapInstance members markers :
  let first := updateMarkers tl mapInstance members markers in
  let second := updateMarkers tl mapInstance members first.1 in
  second.1 = first.1 /\ second.2 = secondPassOps mapInstance members.
Proof.
  cbv zeta. unfold updateMarkers, secondPassOps.
  destruct mapInstance; cbn [negb fst snd]; [| split; reflexivity].
  set (first := fold_left (upsert tl) members (removeStale members markers)).
  assert (Hlook : forall k,
             first.1 !! k
             = fold_left (touch tl) (filter (fun m => id m = k) members)
                 (if decide (listed members k) then markers !! k else None)).
  { intros k. unfold first. by rewrite fold_upsert_lookup, removeStale_lookup. }
  assert (Hkeys : forall k, is_Some (first.1 !! k) -> listed members k).
  { intros k. rewrite Hlook. case_decide as Hl; [done |].
    destruct (filter (fun m => id m = k) members) eqn:Hf.
    - cbn. intros [? ?]; discriminate.
    - intros _. apply listed_filter. by rewrite Hf. }
  rewrite (removeStale_all_listed members first.1 Hkeys).
  split.
  - apply map_eq. intros k.
    rewrite fold_upsert_lookup. cbn [fst]. rewrite Hlook.
    apply fold_touch_twice.
  - rewrite fold_upsert_ops_present; [reflexivity |].
    intros m Hm. cbn [fst]. rewrite Hlook.
    assert (Hne : filter (fun m' => id m' = id m) members <> []).
    { intros Hnil. assert (m ∈ filter (fun m' => id m' = id m) members) as Hin
        by (apply list_elem_of_filter; done).
      rewrite Hnil in Hin. by apply not_elem_of_nil in Hin. }
    destruct (filter (fun m' => id m' = id m) members) as [| x l _] using rev_ind; [done |].
    destruct (fold_touch_snoc l x
                (if decide (listed members (id m)) then markers !! id m else None))
      as (e & He & _).
    rewrite He. eauto.
Qed.

End MarkerFacts.

(** C3, as stated, fails: with one member and an empty store, the first run
    creates the marker; the second run on the same list calls [setPosition]
    on it, an update operation, and fits the bounds again. *)
Lemma updateMarkers_second_pass_updates :
  let first := GoogleMap.updateMarkers showTime true [rider] ∅ in
  let second := GoogleMap.updateMarkers showTime true [rider] first.1 in
  first.2 = [ GoogleMap.Create "1" (GoogleMap.newMarker showTime rider);
              GoogleMap.FitBounds [GoogleMap.location rider] ]
  /\ second.2 = [ GoogleMap.SetPosition "1" (GoogleMap.location rider);
                 GoogleMap.FitBounds [GoogleMap.location rider] ].
Proof. split; vm_compute; reflexivity. Qed.

(** Every marker the second loop creates is the new marker of a member of
    the list. *)
Lemma fold_upsert_creates tl ms : forall acc k marker,
  GoogleMap.Create k marker ∈ (fold_left (GoogleMap.upsert tl) ms acc).2 ->
  GoogleMap.Create k marker ∈ acc.2
  \/ exists m, m ∈ ms /\ k = GoogleMap.id m /\ marker = GoogleMap.newMarker tl m.
Proof.
  induction ms as [| m ms IH]; intros acc k marker Hin; cbn [fold_left] in Hin.
  - by left.
  - apply IH in Hin as [Hin | (m' & Hm' & Hk & Hmk)].
    + rewrite upsert_ops in Hin. apply elem_of_app in Hin as [Hin | Hin]; [by left |].
      apply list_elem_of_singleton in Hin. right. exists m.
      destruct (acc.1 !! GoogleMap.id m); [discriminate |].
      injection Hin as -> ->. split; [left | done].
    + right. exists m'. split; [by right | done].
Qed.

(** The first loop creates nothing. *)
Lemma removeStale_no_create members markers k marker :
  GoogleMap.Create k marker ∉ (GoogleMap.removeStale members markers).2.
Proof.
  unfold GoogleMap.removeStale. cbn [snd]. intros Hin.
  apply list_elem_of_fmap in Hin as (entry & Heq & _). discriminate.
Qed.

(** Every marker [updateMarkers] creates is the new marker of a member. *)
Lemma updateMarkers_creates tl mapInstance members markers k marker :
  GoogleMap.Create k marker ∈ (GoogleMap.updateMarkers tl mapInstance members markers).2 ->
  exists m, m ∈ members /\ k = GoogleMap.id m /\ marker = GoogleMap.newMarker tl m.
Proof.
  unfold GoogleMap.updateMarkers. destruct mapInstance; cbn [negb snd].
  - intros Hin. apply elem_of_app in Hin as [Hin | Hin].
    + apply fold_upsert_creates in Hin as [Hin | Hin]; [| exact Hin].
      by apply removeStale_no_create in Hin.
    + destruct members; [by apply not_elem_of_nil in Hin |].
      apply list_elem_of_singleton in Hin. discriminate.
  - intros Hin. by apply not_elem_of_nil in Hin.
Qed.

(** Every member handed to the map comes from a roster member whose two
    coordinates are numbers, and carries them. *)
Lemma mapMembers_elem now rideMembers m :
  m ∈ MapDashboard.mapMembers now rideMembers ->
  exists member,
    member ∈ rideMembers
    /\ m = MapDashboard.toMapMember now member
    /\ Api.latitude member = Some (GoogleMap.lat (GoogleMap.location m))
    /\ Api.longitude member = Some (GoogleMap.lng (GoogleMap.location m)).
Proof.
  unfold MapDashboard.mapMembers. intros Hin.
  apply list_elem_of_fmap in Hin as (member & -> & Hin).
  apply list_elem_of_filter in Hin as [[[la Hla] [lo Hlo]] Hin].
  exists member. split; [exact Hin |]. split; [reflexivity |].
  cbn. rewrite Hla, Hlo. done.
Qed.

(** C7: the members handed to the map all come from roster members whose
    latitude and longitude are both numbers, and carry those coordinates; a
    roster member lacking a coordinate (so, one lacking both) adds nothing to
    what is handed over; and every marker [updateMarkers] creates for the
    handed list sits at the coordinates its member reported, never at a
    default. *)
Theorem mapMembers_only_located :
  forall tl now rideMembers,
    (forall m, m ∈ MapDashboard.mapMembers now rideMembers ->
       exists member,
         member ∈ rideMembers
         /\ GoogleMap.id m = Api.member_id member
         /\ Api.latitude member = Some (GoogleMap.lat (GoogleMap.location m))
         /\ Api.longitude member = Some (GoogleMap.lng (GoogleMap.location m)))
    /\ (forall before member after,
         Api.latitude member = None \/ Api.longitude member = None ->
         MapDashboard.mapMembers now (before ++ member :: after)
         = MapDashboard.mapMembers now (before ++ after))
    /\ (forall mapInstance markers k marker,
         GoogleMap.Create k marker
           ∈ (GoogleMap.updateMarkers tl mapInstance
                (MapDashboard.mapMembers now rideMembers) markers).2 ->
         exists member,
           member ∈ rideMembers
           /\ k = Api.member_id member
           /\ Api.latitude member = Some (GoogleMap.lat (GoogleMap.position marker))
           /\ Api.longitude member = Some (GoogleMap.lng (GoogleMap.position marker))).
Proof.
  intros tl now rideMembers. split; [| split].
  - intros m Hin. apply mapMembers_elem in Hin as (member & Hin & -> & Hla & Hlo).
    exists member. done.
  - intros before member after Hnone. unfold MapDashboard.mapMembers.
    rewrite !filter_app, filter_cons_False; [reflexivity |].
    intros [[la Hla] [lo Hlo]]. destruct Hnone; congruence.
  - intros mapInstance markers k marker Hin.
    apply updateMarkers_creates in Hin as (m & Hm & -> & ->).
    apply mapMembers_elem in Hm as (member & Hin & -> & Hla & Hlo).
    exists member. done.
Qed.

Lemma mapMembers_only_located_witness :
  MapDashboard.mapMembers 1704067560000 ([alice] ++ bob :: [])
  = MapDashboard.mapMembers 1704067560000 ([alice] ++ []).
Proof.
  exact (proj1 (proj2 (mapMembers_only_located showTime 1704067560000 [alice; bob]))
           [alice] bob [] (or_introl eq_refl)).
Defined.

(** ** The Anomaly Detector *)

(** The condition of the anomaly check says what its comment says. *)
Lemma stale_spec getTime now member :
  MapDashboard.stale getTime now member = true
  <-> lastUpdateOlderThan5Minutes getTime now member.
Proof.
  unfold MapDashboard.stale, lastUpdateOlderThan5Minutes, truthy.
  destruct (Api.lastLocationUpdate member) as [text|]; cbn.
  - destruct (String.eqb_spec text "") as [He | He]; cbn.
    + split; [discriminate |]. intros (? & ? & [= <-] & Hn & _). contradiction.
    + destruct (getTime text) as [t|] eqn:Hg.
      * rewrite bool_decide_eq_true. split.
        -- intros Ht. exists text, t. repeat split; try done.
        -- intros (? & t' & [= <-] & _ & Hg' & Ht).
           rewrite Hg in Hg'. injection Hg' as <-. lia.
      * split; [discriminate |]. intros (? & ? & [= <-] & _ & Hg' & _).
        rewrite Hg in Hg'. discriminate.
  - split; [discriminate |]. intros (? & ? & [=] & _).
Qed.

(** The [forEach] of a detection pass, started at call number [k]. *)
Lemma fold_checkMember getTime rideId now envs ms : forall k st,
  let r := fold_left (MapDashboard.checkMember getTime rideId now envs) ms (k, st) in
  AlertSystem.alerts r.2
  = AlertSystem.alerts st
    ++ imap (fun n => anomalyAlert rideId envs (k + n))
         (filter (fun m => MapDashboard.stale getTime now m) ms)
  /\ AlertSystem.timers r.2
    = AlertSystem.timers st
      ++ imap (fun n _ => anomalyTimer envs (k + n))
           (filter (fun m => MapDashboard.stale getTime now m) ms)
  /\ AlertSystem.serverAlerts r.2 = AlertSystem.serverAlerts st.
Proof.
  induction ms as [| m ms IH]; intros k st; cbn [fold_left].
  - cbn. rewrite !app_nil_r. done.
  - destruct (MapDashboard.stale getTime now m) eqn:Hs.
    + assert (MapDashboard.checkMember getTime rideId now envs (k, st) m
              = (S k, (AlertSystem.addAlert rideId (envs k) (MapDashboard.anomalyMessage m)
                         (Some AlertSystem.warning) (Some 10000) st).2)) as ->
        by (unfold MapDashboard.checkMember; rewrite Hs; reflexivity).
      rewrite filter_cons_True by (rewrite Hs; done).
      destruct (IH (S k)
                  (AlertSystem.addAlert rideId (envs k) (MapDashboard.anomalyMessage m)
                     (Some AlertSystem.warning) (Some 10000) st).2) as (Ha & Ht & Hv).
      cbv zeta in Ha, Ht, Hv. rewrite Ha, Ht, Hv.
      rewrite addAlert_alerts, addAlert_timers, addAlert_serverAlerts.
      cbn [imap default]. rewrite <- !app_assoc. cbn [app].
      rewrite Nat.add_0_r.
      split; [| split; [| reflexivity]].
      * f_equal. f_equal; try reflexivity.
        apply imap_ext. intros n x _. unfold compose. f_equal. lia.
      * rewrite bool_decide_eq_true_2 by (cbn; lia). rewrite <- app_assoc. cbn [app].
        f_equal. f_equal; try reflexivity.
        apply imap_ext. intros n x _. unfold compose. f_equal. lia.
    + assert (MapDashboard.checkMember getTime rideId now envs (k, st) m = (k, st)) as ->
        by (unfold MapDashboard.checkMember; rewrite Hs; reflexivity).
      rewrite filter_cons_False by (rewrite Hs; intros []).
      apply IH.
Qed.

(** C8: a detection pass adds, for each roster member whose last update time
    is known and more than five minutes old, exactly one alert: a [warning]
    whose message names the member, with duration 10000 ms and a 10000 ms
    timer; it adds nothing for any other member. *)
Theorem anomalyDetection_alerts :
  forall getTime rideId now envs rideMembers st,
    let flagged := filter (fun m => MapDashboard.stale getTime now m) rideMembers in
    let st' := MapDashboard.anomalyDetection getTime rideId now envs rideMembers st in
    (forall member,
        member ∈ flagged
        <-> member ∈ rideMembers /\ lastUpdateOlderThan5Minutes getTime now member)
    /\ AlertSystem.alerts st' = AlertSystem.alerts st ++ imap (anomalyAlert rideId envs) flagged
    /\ AlertSystem.timers st'
      = AlertSystem.timers st ++ imap (fun n _ => anomalyTimer envs n) flagged.
Proof.
  intros getTime rideId now envs rideMembers st flagged st'.
  split.
  - intros member. unfold flagged. rewrite list_elem_of_filter, <- stale_spec.
    rewrite Is_true_true. tauto.
  - subst st' flagged. unfold MapDashboard.anomalyDetection.
    destruct rideMembers as [| m ms].
    + cbn. rewrite !app_nil_r. done.
    + destruct (fold_checkMember getTime rideId now envs (m :: ms) 0%nat st) as (Ha & Ht & _).
      cbv zeta in Ha, Ht. rewrite Ha, Ht. done.
Qed.

Lemma anomalyDetection_alerts_witness :
  alice ∈ filter (fun m => MapDashboard.stale parseDate sixMinutesLater m) [alice]
  /\ AlertSystem.alerts
       (MapDashboard.anomalyDetection parseDate None sixMinutesLater (fun _ => env0)
          [alice] AlertSystem.initial)
     = AlertSystem.alerts AlertSystem.initial
       ++ imap (anomalyAlert None (fun _ => env0))
            (filter (fun m => MapDashboard.stale parseDate sixMinutesLater m) [alice]).
Proof.
  destruct (anomalyDetection_alerts parseDate None sixMinutesLater (fun _ => env0)
              [alice] AlertSystem.initial) as (Hm & Ha & _).
  split; [| exact Ha].
  apply Hm. split; [left |].
  exists "2024-01-01T00:00:00Z", 1704067200000.
  split; [reflexivity |]. split; [discriminate |]. split; [reflexivity |].
  unfold sixMinutesLater. lia.
Defined.

(** ** More on the Alert Engine *)

(** Removing an id that no local alert has changes nothing. *)
Lemma removeAlert_absent i st :
  (forall a, a ∈ AlertSystem.alerts st -> AlertSystem.id a <> i) ->
  AlertSystem.removeAlert i st = st.
Proof.
  intros Hno. destruct st as [als svs tms]. unfold AlertSystem.removeAlert, AlertSystem.setAlerts.
  cbn in *. f_equal.
  induction als as [| a als IH]; [reflexivity |].
  rewrite filter_cons_True by (apply Hno; left).
  f_equal. apply IH. intros b Hb. apply Hno. by right.
Qed.

Lemma removeAlert_gone i st a :
  a ∈ AlertSystem.alerts (AlertSystem.removeAlert i st) -> AlertSystem.id a <> i.
Proof.
  unfold AlertSystem.removeAlert, AlertSystem.setAlerts. cbn.
  intros Hin. by apply list_elem_of_filter in Hin as [Hne _].
Qed.

(** Dismissing twice, or a timer firing after its alert was dismissed,
    changes nothing; [removeAlert] leaves the registered timers alone, and
    removing an id that no local alert has leaves the state as it is. *)
Theorem removeAlert_again_changes_nothing :
  forall i t st,
    AlertSystem.removeAlert i (AlertSystem.removeAlert i st) = AlertSystem.removeAlert i st
    /\ AlertSystem.fireTimer t (AlertSystem.removeAlert (AlertSystem.timer_id t) st)
       = AlertSystem.removeAlert (AlertSystem.timer_id t) st
    /\ AlertSystem.timers (AlertSystem.removeAlert i st) = AlertSystem.timers st
    /\ ((forall a, a ∈ AlertSystem.alerts st -> AlertSystem.id a <> i) ->
        AlertSystem.removeAlert i st = st).
Proof.
  intros i t st. split; [| split; [| split]].
  - apply removeAlert_absent. intros a. apply removeAlert_gone.
  - unfold AlertSystem.fireTimer. apply removeAlert_absent. intros a. apply removeAlert_gone.
  - reflexivity.
  - apply removeAlert_absent.
Qed.

Lemma removeAlert_again_changes_nothing_witness :
  AlertSystem.removeAlert "gone" AlertSystem.initial = AlertSystem.initial.
Proof.
  refine (proj2 (proj2 (proj2 (removeAlert_again_changes_nothing
            "gone" {| AlertSystem.timer_id := "gone"; AlertSystem.timer_delay := 5000 |}
            AlertSystem.initial))) _).
  intros a Ha. cbn in Ha. by apply not_elem_of_nil in Ha.
Defined.

(** [removeAlert] works on the local list only: the server alerts stay, and
    a mirrored server alert is still in the merged view after its own id was
    dismissed. *)
Theorem removeAlert_keeps_server_alerts :
  forall i st,
    AlertSystem.serverAlerts (AlertSystem.removeAlert i st) = AlertSystem.serverAlerts st
    /\ AlertSystem.allAlerts (AlertSystem.removeAlert i st)
       = filter (fun a => AlertSystem.id a <> i) (AlertSystem.alerts st)
         ++ (AlertSystem.ofServerAlert <$> AlertSystem.serverAlerts st)
    /\ (forall serverAlert,
          serverAlert ∈ AlertSystem.serverAlerts st ->
          AlertSystem.ofServerAlert serverAlert
            ∈ AlertSystem.allAlerts (AlertSystem.removeAlert (Api.id serverAlert) st)).
Proof.
  intros i st. split; [reflexivity |]. split; [reflexivity |].
  intros sa Hsa. unfold AlertSystem.allAlerts. apply elem_of_app. right.
  cbn. apply list_elem_of_fmap. exists sa. done.
Qed.

(** Expiry: [addAlert] with a positive duration registers one timer for
    the new alert, with that duration as delay; when it fires, the alert is
    gone and the alerts that were there before are back as they were
    (the new id being one that no earlier alert has). *)
Theorem addAlert_timer_expires_alert :
  forall rideId e message type_arg duration_arg st,
    default 5000 duration_arg > 0 ->
    (forall a, a ∈ AlertSystem.alerts st ->
       AlertSystem.id a
       <> Z_toString (AlertSystem.Date_now e) +:+ AlertSystem.Math_random e) ->
    let r := AlertSystem.addAlert rideId e message type_arg duration_arg st in
    exists t,
      AlertSystem.timers r.2 = AlertSystem.timers st ++ [t]
      /\ AlertSystem.timer_id t = r.1
      /\ AlertSystem.timer_delay t = default 5000 duration_arg
      /\ AlertSystem.alerts (AlertSystem.fireTimer t r.2) = AlertSystem.alerts st.
Proof.
  intros rideId e message type_arg duration_arg st Hd Hfresh r.
  eexists. subst r. rewrite addAlert_timers. rewrite bool_decide_eq_true_2 by exact Hd.
  split; [reflexivity |]. split; [reflexivity |]. split; [reflexivity |].
  unfold AlertSystem.fireTimer, AlertSystem.removeAlert, AlertSystem.setAlerts.
  cbn [AlertSystem.alerts AlertSystem.timer_id].
  rewrite addAlert_alerts, filter_app, filter_cons_False, filter_nil, app_nil_r
    by (cbn; intros H; by apply H).
  pose proof (removeAlert_absent _ st Hfresh) as Heq.
  apply (f_equal AlertSystem.alerts) in Heq. exact Heq.
Qed.

Lemma addAlert_timer_expires_alert_witness :
  exists t,
    AlertSystem.timers (AlertSystem.addAlert None env0 "hello" None None AlertSystem.initial).2
      = [] ++ [t]
    /\ AlertSystem.timer_id t
       = (AlertSystem.addAlert None env0 "hello" None None AlertSystem.initial).1
    /\ AlertSystem.timer_delay t = 5000
    /\ AlertSystem.alerts
         (AlertSystem.fireTimer t
            (AlertSystem.addAlert None env0 "hello" None None AlertSystem.initial).2) = [].
Proof.
  refine (addAlert_timer_expires_alert None env0 "hello" None None AlertSystem.initial _ _).
  - cbn. lia.
  - intros a Ha. cbn in Ha. by apply not_elem_of_nil in Ha.
Defined.

(** [sendServerAlert] on a configured ride, accepted by the backend: one
    call, with severity [medium] unless given; one local alert with the same
    message and duration 0, of category [emergency] for the [emergency] type
    and [info] for every other; no timer. *)
Theorem sendServerAlert_accepted :
  forall rideId e message type severity_arg response st,
    truthy (Some rideId) = true ->
    Api.success response = true ->
    let r := runTask (fun _ => Api.Fulfilled response)
               (AlertSystem.sendServerAlert (Some rideId) e message type severity_arg) st in
    r.2 = [ Api.call_sendAlert {| Api.body_rideId := rideId;
                                  Api.body_type := type;
                                  Api.body_message := message;
                                  Api.body_severity := default Api.medium severity_arg |} ]
    /\ (exists alert,
          AlertSystem.alerts r.1 = AlertSystem.alerts st ++ [alert]
          /\ AlertSystem.message alert = message
          /\ AlertSystem.duration alert = Some 0
          /\ (type = Api.emergency -> AlertSystem.type alert = AlertSystem.emergency)
          /\ (type <> Api.emergency -> AlertSystem.type alert = AlertSystem.info))
    /\ AlertSystem.timers r.1 = AlertSystem.timers st.
Proof.
  intros rideId e message type severity_arg response st Ht Hs r. subst r.
  unfold AlertSystem.sendServerAlert. rewrite Ht. cbn [runTask fst snd]. rewrite Hs.
  rewrite addAlert_alerts, addAlert_timers.
  split; [reflexivity |]. split; [| reflexivity].
  eexists. split; [reflexivity |]. cbn.
  split; [reflexivity |]. split; [reflexivity |].
  split; intros H; case_decide; done.
Qed.

Lemma sendServerAlert_accepted_witness :
  let r := runTask accepting
             (AlertSystem.sendServerAlert (Some "ride-1") env0 "Road closed" Api.traffic None)
             AlertSystem.initial in
  (fun a => (AlertSystem.type a, AlertSystem.duration a)) <$> AlertSystem.alerts r.1
    = [ (AlertSystem.info, Some 0) ]
  /\ AlertSystem.timers r.1 = [].
Proof.
  destruct (sendServerAlert_accepted "ride-1" env0 "Road closed" Api.traffic None accepted
              AlertSystem.initial eq_refl eq_refl) as (_ & (a & Ha & _ & Hd & _ & Hi) & Ht).
  split; [| exact Ht].
  change (AlertSystem.alerts AlertSystem.initial) with (@nil AlertSystem.Alert) in Ha.
  cbn [app] in Ha.
  unfold accepting. rewrite Ha. cbn. rewrite Hd, Hi by discriminate. reflexivity.
Defined.

(** When the promise rejects, either sender adds one [error] alert with
    its fixed message and the default duration: it expires after 5000 ms. *)
Theorem senders_turn_rejection_into_error_alert :
  forall rideId e message type severity_arg st,
    truthy rideId = true ->
    let viaAlert := (runTask (fun _ => Api.Rejected)
                       (AlertSystem.sendServerAlert rideId e message type severity_arg) st).1 in
    let viaEmergency := (runTask (fun _ => Api.Rejected)
                           (AlertSystem.sendEmergencyAlert rideId e message) st).1 in
    (exists alert,
        AlertSystem.alerts viaAlert = AlertSystem.alerts st ++ [alert]
        /\ AlertSystem.type alert = AlertSystem.error
        /\ AlertSystem.message alert = "Failed to send alert to server"
        /\ AlertSystem.duration alert = Some 5000
        /\ AlertSystem.timers viaAlert
           = AlertSystem.timers st
             ++ [ {| AlertSystem.timer_id := AlertSystem.id alert;
                     AlertSystem.timer_delay := 5000 |} ])
    /\ (exists alert,
          AlertSystem.alerts viaEmergency = AlertSystem.alerts st ++ [alert]
          /\ AlertSystem.type alert = AlertSystem.error
          /\ AlertSystem.message alert = "Failed to send emergency alert"
          /\ AlertSystem.duration alert = Some 5000
          /\ AlertSystem.timers viaEmergency
             = AlertSystem.timers st
               ++ [ {| AlertSystem.timer_id := AlertSystem.id alert;
                       AlertSystem.timer_delay := 5000 |} ]).
Proof.
  intros rideId e message type severity_arg st Ht viaAlert viaEmergency.
  subst viaAlert viaEmergency.
  unfold AlertSystem.sendServerAlert, AlertSystem.sendEmergencyAlert.
  destruct rideId as [r|]; [| discriminate]. rewrite Ht. cbn [runTask fst].
  rewrite !addAlert_alerts, !addAlert_timers. cbn [default].
  split; eexists; (split; [reflexivity |]); cbn; done.
Qed.

Lemma senders_turn_rejection_into_error_alert_witness :
  AlertSystem.type
    <$> AlertSystem.alerts
          (runTask (fun _ => Api.Rejected)
             (AlertSystem.sendEmergencyAlert (Some "ride-1") env0 "help")
             AlertSystem.initial).1
  = [AlertSystem.error].
Proof.
  destruct (senders_turn_rejection_into_error_alert (Some "ride-1") env0 "help"
              Api.emergency None AlertSystem.initial eq_refl)
    as (_ & (a & Ha & Hty & _)).
  rewrite Ha. cbn. rewrite Hty. reflexivity.
Defined.

(** The server-sync fetch never touches the local alerts or the timers.
    Without server sync or without a ride it does not run; a failed fetch
    keeps the cached server alerts; a successful one replaces them by the
    response data. *)
Theorem fetchServerAlerts_outcome :
  forall rideId enableServerSync settled st,
    let r := runTask (fun _ => settled)
               (AlertSystem.fetchServerAlerts rideId enableServerSync) st in
    AlertSystem.alerts r.1 = AlertSystem.alerts st
    /\ AlertSystem.timers r.1 = AlertSystem.timers st
    /\ (enableServerSync && truthy rideId = false -> r = (st, []))
    /\ (fetchFailed settled = true -> r.1 = st)
    /\ (forall response,
          enableServerSync && truthy rideId = true ->
          settled = Api.Fulfilled response -> Api.success response = true ->
          AlertSystem.serverAlerts r.1 = Api.data response
          /\ AlertSystem.allAlerts r.1
             = AlertSystem.alerts st ++ (AlertSystem.ofServerAlert <$> Api.data response)).
Proof.
  intros rideId enableServerSync settled st r. subst r.
  unfold AlertSystem.fetchServerAlerts.
  destruct (enableServerSync && truthy rideId) eqn:Hon.
  - destruct rideId as [ride|]; [| by destruct enableServerSync].
    cbn [runTask fst snd].
    destruct settled as [response|]; [destruct (Api.success response) eqn:Hs |]; cbn.
    + split; [reflexivity |]. split; [reflexivity |]. split; [discriminate |].
      split; [rewrite Hs; discriminate |].
      intros response' _ [= <-] _. split; reflexivity.
    + split; [reflexivity |]. split; [reflexivity |]. split; [discriminate |].
      split; [reflexivity |].
      intros response' _ [= <-] Hs'. congruence.
    + split; [reflexivity |]. split; [reflexivity |]. split; [discriminate |].
      split; [reflexivity |]. discriminate.
  - cbn.
    split; [reflexivity |]. split; [reflexivity |]. split; [reflexivity |].
    split; [reflexivity |]. discriminate.
Qed.

Lemma fetchServerAlerts_outcome_witness :
  AlertSystem.serverAlerts
    (runTask (fun _ => Api.Fulfilled twoServerAlerts)
       (AlertSystem.fetchServerAlerts (Some "ride-1") true) AlertSystem.initial).1
  = [ Api.data accepted ].
Proof.
  exact (proj1 (proj2 (proj2 (proj2 (proj2
           (fetchServerAlerts_outcome (Some "ride-1") true
              (Api.Fulfilled twoServerAlerts) AlertSystem.initial))))
           twoServerAlerts eq_refl eq_refl eq_refl)).
Defined.

(** With server sync on and an accepting backend, each of the four
    predefined alerts ends up twice in the local list: the alert itself,
    expiring after 5000 ms, and the copy [sendServerAlert] adds, an [info]
    alert with the same message that never expires. *)
Theorem predefined_alerts_with_server_sync :
  forall rideId e e' response st memberName action message,
    truthy (Some rideId) = true ->
    Api.success response = true ->
    let backend := fun _ : Api.Call => Api.Fulfilled response in
    let run := fun p : AlertSystem.State * Task Api.Alert AlertSystem.State =>
                 (runTask backend p.2 p.1).1 in
    shownTwice AlertSystem.info (memberName +:+ " " +:+ action) st
      (run (AlertSystem.showLocationAlert (Some rideId) true e e' memberName action st))
    /\ shownTwice AlertSystem.warning ("Traffic Alert: " +:+ message) st
         (run (AlertSystem.showTrafficAlert (Some rideId) true e e' message st))
    /\ shownTwice AlertSystem.error ("Error: " +:+ message) st
         (run (AlertSystem.showErrorAlert (Some rideId) true e e' message st))
    /\ shownTwice AlertSystem.success message st
         (run (AlertSystem.showSuccessAlert (Some rideId) true e e' message st)).
Proof.
  intros rideId e e' response st memberName action message Ht Hs backend run.
  subst backend run. cbv beta.
  unfold shownTwice, AlertSystem.showLocationAlert, AlertSystem.showTrafficAlert,
    AlertSystem.showErrorAlert, AlertSystem.showSuccessAlert, AlertSystem.sendServerAlert.
  repeat split;
    (cbn [fst snd]; rewrite Ht; cbn [runTask fst snd]; rewrite Hs;
     rewrite !addAlert_alerts, !addAlert_timers; cbn [default];
     rewrite <- app_assoc; cbn [app];
     do 2 eexists; split; [reflexivity |]; cbn; done).
Qed.

Lemma predefined_alerts_with_server_sync_witness :
  shownTwice AlertSystem.warning "Traffic Alert: jam" AlertSystem.initial
    (runTask accepting
       (AlertSystem.showTrafficAlert (Some "ride-1") true env0 env0 "jam" AlertSystem.initial).2
       (AlertSystem.showTrafficAlert (Some "ride-1") true env0 env0 "jam" AlertSystem.initial).1).1.
Proof.
  exact (proj1 (proj2 (predefined_alerts_with_server_sync "ride-1" env0 env0 accepted
                         AlertSystem.initial "Alice" "arrived" "jam" eq_refl eq_refl))).
Defined.

Lemma timersArmed_addAlert rideId e message type_arg duration_arg st :
  timersArmed st ->
  timersArmed (AlertSystem.addAlert rideId e message type_arg duration_arg st).2.
Proof.
  intros [Ht Ha]. unfold timersArmed.
  rewrite addAlert_alerts, addAlert_timers. split.
  - intros t Hin. case_bool_decide as Hd; [| by apply Ht].
    apply elem_of_app in Hin as [Hin | Hin]; [by apply Ht |].
    apply list_elem_of_singleton in Hin. subst t. exact Hd.
  - intros a Hin. apply elem_of_app in Hin as [Hin | Hin].
    + destruct (Ha a Hin) as (d & Hd & Hreg). exists d. split; [exact Hd |].
      intros Hpos. case_bool_decide; [apply elem_of_app; left |]; by apply Hreg.
    + apply list_elem_of_singleton in Hin. subst a. cbn.
      eexists. split; [reflexivity |]. intros Hpos.
      rewrite bool_decide_eq_true_2 by exact Hpos.
      apply elem_of_app. right. by apply list_elem_of_singleton.
Qed.

Lemma timersArmed_setAlerts f st :
  (forall a, a ∈ f (AlertSystem.alerts st) -> a ∈ AlertSystem.alerts st) ->
  timersArmed st -> timersArmed (AlertSystem.setAlerts f st).
Proof.
  intros Hsub [Ht Ha]. split; [exact Ht |].
  intros a Hin. apply Ha. by apply Hsub.
Qed.

Lemma timersArmed_removeAlert i st :
  timersArmed st -> timersArmed (AlertSystem.removeAlert i st).
Proof.
  apply timersArmed_setAlerts. intros a Hin.
  by apply list_elem_of_filter in Hin as [_ Hin].
Qed.

Lemma timersArmed_step rideId enableServerSync st a :
  timersArmed st -> timersArmed (alertStep rideId enableServerSync st a).
Proof.
  intros Hinv. destruct a; cbn [alertStep].
  - by apply timersArmed_addAlert.
  - by apply timersArmed_removeAlert.
  - apply timersArmed_setAlerts; [| exact Hinv]. intros a Hin. by apply not_elem_of_nil in Hin.
  - destruct (AlertSystem.timers st !! n); [| exact Hinv]. by apply timersArmed_removeAlert.
  - unfold AlertSystem.sendServerAlert.
    destruct (truthy rideId), rideId; cbn [runTask fst]; try exact Hinv.
    destruct settled as [response|]; [destruct (Api.success response) |];
      try exact Hinv; by apply timersArmed_addAlert.
  - unfold AlertSystem.sendEmergencyAlert.
    destruct (truthy rideId), rideId; cbn [runTask fst]; try exact Hinv.
    destruct settled as [response|]; [destruct (Api.success response) |];
      try exact Hinv; by apply timersArmed_addAlert.
  - unfold AlertSystem.fetchServerAlerts.
    destruct (enableServerSync && truthy rideId), rideId; cbn [runTask fst]; try exact Hinv.
    destruct settled as [response|]; [destruct (Api.success response) |];
      exact Hinv.
Qed.

(** Whatever happens to the hook, every registered timer has a positive
    delay, and every local alert has a duration and, when it is positive, a
    timer registered for it with that delay. *)
Theorem alert_timers_always_armed :
  forall rideId enableServerSync trace,
    timersArmed (fold_left (alertStep rideId enableServerSync) trace AlertSystem.initial).
Proof.
  intros rideId enableServerSync trace.
  assert (Hgen : forall st, timersArmed st ->
                   timersArmed (fold_left (alertStep rideId enableServerSync) trace st)).
  { induction trace as [| a trace IH]; intros st Hinv; cbn [fold_left]; [exact Hinv |].
    apply IH. by apply timersArmed_step. }
  apply Hgen. split; intros x Hin; cbn in Hin; by apply not_elem_of_nil in Hin.
Qed.

(** ** More on the Presence Poller *)

Lemma poll_cons rideId fetch fetches st :
  poll rideId (fetch :: fetches) st
  = poll rideId fetches
      (runTask (fun _ => fetch.1) (RealTimeUpdates.fetchUpdates rideId fetch.2) st).1.
Proof. reflexivity. Qed.

Lemma poll_snoc rideId fetch fetches st :
  poll rideId (fetches ++ [fetch]) st
  = (runTask (fun _ => fetch.1) (RealTimeUpdates.fetchUpdates rideId fetch.2)
       (poll rideId fetches st)).1.
Proof. unfold poll. by rewrite fold_left_app. Qed.

Lemma last_omap_snoc {A B : Type} (f : A -> option B) (l : list A) (x : A) :
  last (omap f (l ++ [x]))
  = match f x with
    | Some y => Some y
    | None => last (omap f l)
    end.
Proof.
  rewrite omap_app. cbn. destruct (f x); [apply last_snoc | by rewrite app_nil_r].
Qed.

(** One fetch, as the hook state sees it. *)
Lemma fetchUpdates_step rideId now settled st :
  let st' := (runTask (fun _ => settled) (RealTimeUpdates.fetchUpdates rideId now) st).1 in
  (fetchFailed settled = true ->
   RealTimeUpdates.isConnected st' = false
   /\ is_Some (RealTimeUpdates.error st')
   /\ RealTimeUpdates.members st' = RealTimeUpdates.members st
   /\ RealTimeUpdates.lastUpdate st' = RealTimeUpdates.lastUpdate st)
  /\ (forall response,
        settled = Api.Fulfilled response -> Api.success response = true ->
        RealTimeUpdates.members st' = Api.data response
        /\ RealTimeUpdates.isConnected st' = true
        /\ RealTimeUpdates.error st' = None
        /\ RealTimeUpdates.lastUpdate st' = Some now).
Proof.
  cbn [runTask RealTimeUpdates.fetchUpdates fst]. split.
  - destruct settled as [response|]; cbn.
    + destruct (Api.success response); [discriminate |]. intros _. cbn. eauto.
    + intros _. eauto.
  - intros response -> Hs. rewrite Hs. cbn. eauto.
Qed.

(** After any run of fetches the snapshot is the data of the most recent
    successful one (the initial snapshot when none succeeded), [lastUpdate]
    is the time of that fetch, and [isConnected] and [error] tell how the
    last fetch went. *)
Theorem poll_keeps_last_good_snapshot :
  forall rideId fetches st,
    let st' := poll rideId fetches st in
    RealTimeUpdates.members st'
    = from_option fst (RealTimeUpdates.members st) (last (omap goodFetch fetches))
    /\ RealTimeUpdates.lastUpdate st'
       = from_option (fun good => Some good.2) (RealTimeUpdates.lastUpdate st)
           (last (omap goodFetch fetches))
    /\ (forall fetch, last fetches = Some fetch ->
          RealTimeUpdates.isConnected st' = negb (fetchFailed fetch.1)
          /\ (RealTimeUpdates.error st' = None <-> fetchFailed fetch.1 = false)).
Proof.
  intros rideId fetches st st'. subst st'.
  induction fetches as [| fetch fetches IH] using rev_ind.
  - cbn. split; [reflexivity |]. split; [reflexivity |]. intros fetch [=].
  - destruct IH as (Hm & Hu & _). rewrite poll_snoc, last_omap_snoc.
    pose proof (fetchUpdates_step rideId fetch.2 fetch.1 (poll rideId fetches st))
      as (Hfail & Hok). cbv zeta in Hfail, Hok.
    assert (Hlast : last (fetches ++ [fetch]) = Some fetch) by apply last_snoc.
    destruct fetch as [settled now]. unfold goodFetch. cbn [fst snd] in *.
    destruct settled as [response|]; [destruct (Api.success response) eqn:Hs |].
    + destruct (Hok response eq_refl Hs) as (Hm' & Hc' & He' & Hu').
      split; [exact Hm' |]. split; [exact Hu' |].
      intros f Hf. rewrite Hlast in Hf. injection Hf as <-. cbn [fst].
      rewrite Hc', He'. cbn. rewrite Hs. done.
    + destruct Hfail as (Hc' & He' & Hm' & Hu'); [cbn; by rewrite Hs |].
      split; [by rewrite Hm' |]. split; [by rewrite Hu' |].
      intros f Hf. rewrite Hlast in Hf. injection Hf as <-. cbn [fst].
      destruct He' as [x Hx]. rewrite Hc', Hx. cbn. rewrite Hs.
      split; [done | split; discriminate].
    + destruct Hfail as (Hc' & He' & Hm' & Hu'); [reflexivity |].
      split; [by rewrite Hm' |]. split; [by rewrite Hu' |].
      intros f Hf. rewrite Hlast in Hf. injection Hf as <-. cbn [fst].
      destruct He' as [x Hx]. rewrite Hc', Hx. cbn.
      split; [done | split; discriminate].
Qed.

(** ** More on Position Capture *)

Lemma resourcesOwned_effect geolocation c :
  resourcesOwned geolocation (LocationSync.effect geolocation c).
Proof.
  unfold LocationSync.effect, LocationSync.startTracking. cbn.
  destruct (LocationSync.isTracking (LocationSync.state c)) eqn:Ht, geolocation; cbn;
    (split; cbn;
     [ split; first [ done | by eauto | by intros [? ?] ]
     | first [ done | discriminate ] ]).
Qed.

Lemma resourcesOwned_frame geolocation c c' :
  LocationSync.watch (LocationSync.runtime c') = LocationSync.watch (LocationSync.runtime c) ->
  LocationSync.syncInterval (LocationSync.runtime c')
  = LocationSync.syncInterval (LocationSync.runtime c) ->
  (LocationSync.watch (LocationSync.runtime c) = true ->
   LocationSync.isTracking (LocationSync.state c') = LocationSync.isTracking (LocationSync.state c)) ->
  resourcesOwned geolocation c -> resourcesOwned geolocation c'.
Proof.
  intros Hw Hi Ht [Hiff Hown]. unfold resourcesOwned. rewrite Hw, Hi.
  split; [exact Hiff |]. intros Hwt. rewrite (Ht Hwt). by apply Hown.
Qed.

Lemma resourcesOwned_step geolocation ev c c' :
  resourcesOwned geolocation c ->
  LocationSync.step geolocation ev c = Some c' ->
  resourcesOwned geolocation c'.
Proof.
  intros Hinv Hs. destruct c as [st rt].
  destruct ev; cbn [LocationSync.step LocationSync.runtime LocationSync.state] in Hs.
  - injection Hs as <-. unfold LocationSync.requestTracking. cbn [LocationSync.state].
    destruct (LocationSync.isTracking st) eqn:Ht; [| apply resourcesOwned_effect].
    eapply resourcesOwned_frame; [..| exact Hinv]; cbn; done.
  - injection Hs as <-. unfold LocationSync.stopTracking. cbn [LocationSync.state].
    destruct (_ || _) eqn:Hch; [apply resourcesOwned_effect |].
    apply orb_false_iff in Hch as [Ht _].
    destruct Hinv as [Hiff Hown]. cbn in *.
    split; cbn; [exact Hiff |]. intros Hw. destruct (Hown Hw) as [Ht' _]. congruence.
  - destruct (LocationSync.pendingPosition rt); [discriminate |].
    injection Hs as <-. apply resourcesOwned_effect.
  - destruct (LocationSync.pendingPosition rt); [discriminate |].
    injection Hs as <-. unfold LocationSync.handleError. cbn [LocationSync.state].
    destruct (LocationSync.isTracking st) eqn:Ht; [apply resourcesOwned_effect |].
    destruct Hinv as [Hiff Hown]. cbn in *.
    split; cbn; [exact Hiff |]. intros Hw. destruct (Hown Hw) as [Ht' _]. congruence.
  - destruct (LocationSync.watch rt); [| discriminate].
    injection Hs as <-. apply resourcesOwned_effect.
  - destruct (LocationSync.watch rt) eqn:Hw; [| discriminate].
    injection Hs as <-. unfold LocationSync.handleError. cbn [LocationSync.state].
    destruct Hinv as [_ Hown]. cbn in Hown. destruct (Hown Hw) as [-> _].
    apply resourcesOwned_effect.
  - destruct (LocationSync.syncInterval rt) as [[loc|]|] eqn:Hi; [| | discriminate];
      injection Hs as <-; [| exact Hinv].
    eapply resourcesOwned_frame; [..| exact Hinv]; cbn; done.
  - destruct (LocationSync.uploads rt); [discriminate |].
    injection Hs as <-.
    eapply resourcesOwned_frame; [..| exact Hinv]; cbn; try done.
    intros _. unfold LocationSync.syncLocationToServer_resume.
    destruct settled as [response|]; [destruct (Api.success response) |]; reflexivity.
Qed.

Lemma resourcesOwned_run geolocation trace : forall c c',
  resourcesOwned geolocation c ->
  LocationSync.run geolocation trace c = Some c' ->
  resourcesOwned geolocation c'.
Proof.
  induction trace as [| ev trace IH]; intros c c' Hinv Hr; cbn in Hr.
  - by injection Hr as <-.
  - destruct (LocationSync.step geolocation ev c) as [c1|] eqn:Hs; [| discriminate].
    cbn in Hr. eapply IH; [| exact Hr]. eapply resourcesOwned_step; eauto.
Qed.

(** In every configuration the hook can reach, the watch and the sync
    interval are registered together, and neither is registered when
    tracking is off or geolocation is unavailable. *)
Theorem no_watch_or_interval_unless_tracking :
  forall geolocation trace c,
    LocationSync.run geolocation trace LocationSync.initial = Some c ->
    (LocationSync.watch (LocationSync.runtime c) = true
     <-> is_Some (LocationSync.syncInterval (LocationSync.runtime c)))
    /\ (LocationSync.isTracking (LocationSync.state c) = false \/ geolocation = false ->
        LocationSync.watch (LocationSync.runtime c) = false
        /\ LocationSync.syncInterval (LocationSync.runtime c) = None).
Proof.
  intros geolocation trace c Hr.
  assert (Hinit : resourcesOwned geolocation LocationSync.initial).
  { split; cbn; [| discriminate]. split; [discriminate | intros [? ?]; discriminate]. }
  destruct (resourcesOwned_run geolocation trace _ _ Hinit Hr) as [Hiff Hown].
  split; [exact Hiff |]. intros Hoff.
  assert (Hw : LocationSync.watch (LocationSync.runtime c) = false).
  { destruct (LocationSync.watch (LocationSync.runtime c)); [| reflexivity].
    destruct (Hown eq_refl) as [Ht Hg]. destruct Hoff; congruence. }
  split; [exact Hw |].
  destruct (LocationSync.syncInterval (LocationSync.runtime c)) eqn:Hi; [| reflexivity].
  rewrite Hw in Hiff. destruct Hiff as [_ Hiff]. by discriminate Hiff.
Qed.

Lemma no_watch_or_interval_unless_tracking_witness :
  exists c,
    LocationSync.run true
      [ LocationSync.StartTracking; LocationSync.WatchPosition fix1 "t1";
        LocationSync.WatchError LocationSync.TIMEOUT ] LocationSync.initial = Some c
    /\ LocationSync.watch (LocationSync.runtime c) = false
    /\ LocationSync.syncInterval (LocationSync.runtime c) = None.
Proof.
  eexists. split; [reflexivity |].
  refine (proj2 (no_watch_or_interval_unless_tracking true
            [ LocationSync.StartTracking; LocationSync.WatchPosition fix1 "t1";
              LocationSync.WatchError LocationSync.TIMEOUT ] _ eq_refl) _).
  left. reflexivity.
Defined.

Lemma idleWithoutGeolocation_step ev c c' :
  idleWithoutGeolocation c ->
  LocationSync.step false ev c = Some c' ->
  idleWithoutGeolocation c'.
Proof.
  intros (Hrt & Hloc & Hsync & Herr) Hs. destruct c as [st rt]. cbn in Hrt, Hloc, Hsync, Herr.
  subst rt.
  destruct ev; cbn in Hs; try discriminate; injection Hs as <-.
  - unfold LocationSync.requestTracking. cbn.
    destruct (LocationSync.isTracking st) eqn:Ht; cbn.
    + repeat split; auto.
    + repeat split; auto.
  - unfold LocationSync.stopTracking. cbn. rewrite Hloc. cbn.
    destruct (LocationSync.isTracking st); cbn; repeat split; done.
Qed.

(** Without geolocation support nothing ever starts: no watch, no
    interval, no position request, no upload and no location, whatever the
    caller does; while [isTracking] is set the unsupported-browser error is
    shown. *)
Theorem without_geolocation_nothing_starts :
  forall trace c,
    LocationSync.run false trace LocationSync.initial = Some c ->
    LocationSync.runtime c = LocationSync.runtime LocationSync.initial
    /\ LocationSync.currentLocation (LocationSync.state c) = None
    /\ LocationSync.lastSyncTime (LocationSync.state c) = None
    /\ (LocationSync.isTracking (LocationSync.state c) = true ->
        LocationSync.error (LocationSync.state c)
        = Some "Geolocation is not supported by this browser").
Proof.
  intros trace c Hr.
  assert (Hgen : forall c0, idleWithoutGeolocation c0 ->
                   LocationSync.run false trace c0 = Some c -> idleWithoutGeolocation c).
  { clear Hr. induction trace as [| ev trace IH]; intros c0 Hinv Hr; cbn in Hr.
    - by injection Hr as <-.
    - destruct (LocationSync.step false ev c0) as [c1|] eqn:Hs; [| discriminate].
      cbn in Hr. eapply IH; [| exact Hr]. eapply idleWithoutGeolocation_step; eauto. }
  apply (Hgen LocationSync.initial); [| exact Hr].
  repeat split; done.
Qed.

Lemma without_geolocation_nothing_starts_witness :
  exists c,
    LocationSync.run false [LocationSync.StartTracking] LocationSync.initial = Some c
    /\ LocationSync.isTracking (LocationSync.state c) = true
    /\ LocationSync.runtime c = LocationSync.runtime LocationSync.initial
    /\ LocationSync.error (LocationSync.state c)
       = Some "Geolocation is not supported by this browser".
Proof.
  eexists. split; [reflexivity |]. split; [reflexivity |].
  destruct (without_geolocation_nothing_starts [LocationSync.StartTracking] _ eq_refl)
    as (Hrt & _ & _ & Herr).
  split; [exact Hrt | exact (Herr eq_refl)].
Defined.

(** [handleError] turns tracking off and shows the message of the error
    code; it keeps the last location and the last sync time, and when
    tracking was on the watch and the interval are released. *)
Theorem handleError_stops_tracking :
  forall geolocation code c,
    let c' := LocationSync.handleError geolocation code c in
    LocationSync.isTracking (LocationSync.state c') = false
    /\ LocationSync.error (LocationSync.state c') = Some (geolocationErrorMessage code)
    /\ LocationSync.currentLocation (LocationSync.state c')
       = LocationSync.currentLocation (LocationSync.state c)
    /\ LocationSync.lastSyncTime (LocationSync.state c')
       = LocationSync.lastSyncTime (LocationSync.state c)
    /\ LocationSync.pendingPosition (LocationSync.runtime c')
       = LocationSync.pendingPosition (LocationSync.runtime c)
    /\ LocationSync.uploads (LocationSync.runtime c')
       = LocationSync.uploads (LocationSync.runtime c)
    /\ (LocationSync.isTracking (LocationSync.state c) = true ->
        LocationSync.watch (LocationSync.runtime c') = false
        /\ LocationSync.syncInterval (LocationSync.runtime c') = None).
Proof.
  intros geolocation code c c'. subst c'.
  assert (Hmsg : (if decide (code = LocationSync.PERMISSION_DENIED)
                  then "Location access denied by user"
                  else if decide (code = LocationSync.POSITION_UNAVAILABLE)
                       then "Location information unavailable"
                       else if decide (code = LocationSync.TIMEOUT)
                            then "Location request timed out"
                            else "Unable to get location")
                 = geolocationErrorMessage code).
  { unfold LocationSync.PERMISSION_DENIED, LocationSync.POSITION_UNAVAILABLE,
      LocationSync.TIMEOUT, geolocationErrorMessage.
    repeat case_decide; subst; try reflexivity.
    destruct code as [| [[| |] | [| |] |] |]; try reflexivity; lia. }
  unfold LocationSync.handleError. rewrite Hmsg.
  destruct (LocationSync.isTracking (LocationSync.state c)) eqn:Ht;
    unfold LocationSync.effect; cbn; repeat split; done.
Qed.

Lemma handleError_stops_tracking_witness :
  LocationSync.watch
    (LocationSync.runtime
       (LocationSync.handleError true LocationSync.PERMISSION_DENIED tracking))
  = false.
Proof.
  exact (proj1 (proj2 (proj2 (proj2 (proj2 (proj2 (proj2
           (handleError_stops_tracking true LocationSync.PERMISSION_DENIED tracking))))))
           eq_refl)).
Defined.

(** The outcome of an upload never changes [isTracking], the current
    location, the watch or the interval: a failed upload only sets the error,
    a successful one clears it and records the sync time. *)
Theorem upload_outcome_never_stops_tracking :
  forall geolocation settled now c c',
    LocationSync.step geolocation (LocationSync.UploadSettled settled now) c = Some c' ->
    LocationSync.isTracking (LocationSync.state c')
    = LocationSync.isTracking (LocationSync.state c)
    /\ LocationSync.currentLocation (LocationSync.state c')
       = LocationSync.currentLocation (LocationSync.state c)
    /\ LocationSync.watch (LocationSync.runtime c') = LocationSync.watch (LocationSync.runtime c)
    /\ LocationSync.syncInterval (LocationSync.runtime c')
       = LocationSync.syncInterval (LocationSync.runtime c)
    /\ (fetchFailed settled = true ->
        is_Some (LocationSync.error (LocationSync.state c'))
        /\ LocationSync.lastSyncTime (LocationSync.state c')
           = LocationSync.lastSyncTime (LocationSync.state c))
    /\ (fetchFailed settled = false ->
        LocationSync.error (LocationSync.state c') = None
        /\ LocationSync.lastSyncTime (LocationSync.state c') = Some now).
Proof.
  intros geolocation settled now c c' Hs. cbn in Hs.
  destruct (LocationSync.uploads (LocationSync.runtime c)); [discriminate |].
  injection Hs as <-. unfold LocationSync.syncLocationToServer_resume.
  destruct settled as [response|]; [destruct (Api.success response) eqn:Hok |]; cbn;
    rewrite ?Hok; cbn; repeat split; try done; eauto.
Qed.

Lemma upload_outcome_never_stops_tracking_witness :
  exists c',
    LocationSync.step true
      (LocationSync.UploadSettled (Api.Fulfilled (uploadAnswer false)) 7) uploading = Some c'
    /\ LocationSync.isTracking (LocationSync.state c') = true
    /\ is_Some (LocationSync.error (LocationSync.state c')).
Proof.
  destruct (LocationSync.step true
              (LocationSync.UploadSettled (Api.Fulfilled (uploadAnswer false)) 7) uploading)
    as [c'|] eqn:Hs; [| discriminate Hs].
  exists c'. split; [reflexivity |].
  destruct (upload_outcome_never_stops_tracking true
              (Api.Fulfilled (uploadAnswer false)) 7 uploading c' Hs)
    as (Ht & _ & _ & _ & Hfail & _).
  split; [rewrite Ht; reflexivity | exact (proj1 (Hfail eq_refl))].
Defined.

(** A sample delivered by the watch while tracking becomes the current
    location and is uploaded; the effect runs again, so the watch and the
    interval are registered anew, a further position request is made, and
    the next interval tick uploads the same sample once more. *)
Theorem watched_sample_is_stored_and_uploaded :
  forall position iso c,
    LocationSync.isTracking (LocationSync.state c) = true ->
    LocationSync.watch (LocationSync.runtime c) = true ->
    exists c',
      LocationSync.step true (LocationSync.WatchPosition position iso) c = Some c'
      /\ LocationSync.currentLocation (LocationSync.state c') = Some (sampleOf position iso)
      /\ LocationSync.isTracking (LocationSync.state c') = true
      /\ LocationSync.uploads (LocationSync.runtime c')
         = LocationSync.uploads (LocationSync.runtime c) ++ [sampleOf position iso]
      /\ LocationSync.watch (LocationSync.runtime c') = true
      /\ LocationSync.syncInterval (LocationSync.runtime c') = Some (Some (sampleOf position iso))
      /\ LocationSync.pendingPosition (LocationSync.runtime c')
         = S (LocationSync.pendingPosition (LocationSync.runtime c))
      /\ exists c'',
          LocationSync.step true LocationSync.IntervalTick c' = Some c''
          /\ LocationSync.uploads (LocationSync.runtime c'')
             = LocationSync.uploads (LocationSync.runtime c)
               ++ [sampleOf position iso; sampleOf position iso].
Proof.
  intros position iso c Ht Hw. eexists. cbn [LocationSync.step]. rewrite Hw.
  split; [reflexivity |].
  unfold LocationSync.handleSuccess, LocationSync.effect. cbn. rewrite Ht. cbn.
  repeat split; try done.
  eexists. split; [reflexivity |]. cbn. by rewrite <- app_assoc.
Qed.

Lemma watched_sample_is_stored_and_uploaded_witness :
  exists c',
    LocationSync.step true (LocationSync.WatchPosition fix1 "t1") tracking = Some c'
    /\ LocationSync.currentLocation (LocationSync.state c') = Some (sampleOf fix1 "t1").
Proof.
  destruct (watched_sample_is_stored_and_uploaded fix1 "t1" tracking eq_refl eq_refl)
    as (c' & Hs & Hloc & _).
  exists c'. split; [exact Hs | exact Hloc].
Defined.

(** ** More on the Marker Reconciler *)

(** The entry of [k] after a pass with the map in place: what the store
    held for [k] if a member has that id, touched by the members with id
    [k] in list order. *)
Lemma updateMarkers_lookup tl members markers k :
  (GoogleMap.updateMarkers tl true members markers).1 !! k
  = fold_left (touch tl) (filter (fun m => GoogleMap.id m = k) members)
      (if decide (GoogleMap.listed members k) then markers !! k else None).
Proof.
  unfold GoogleMap.updateMarkers. cbn [negb fst].
  by rewrite fold_upsert_lookup, removeStale_lookup.
Qed.

Lemma listed_elem members k :
  GoogleMap.listed members k <-> exists m, m ∈ members /\ GoogleMap.id m = k.
Proof.
  rewrite listed_filter. split.
  - destruct (filter (fun m => GoogleMap.id m = k) members) as [| m l] eqn:Hf; [done |].
    intros _. exists m.
    assert (Hin : m ∈ filter (fun m => GoogleMap.id m = k) members) by (rewrite Hf; left).
    apply list_elem_of_filter in Hin as [Hk Hin]. done.
  - intros (m & Hin & Hk) Hnil.
    assert (Hm : m ∈ filter (fun m => GoogleMap.id m = k) members)
      by (by apply list_elem_of_filter).
    rewrite Hnil in Hm. by apply not_elem_of_nil in Hm.
Qed.

(** After a pass with the map in place the store holds a marker for an id
    exactly when a member of the list has that id. *)
Theorem updateMarkers_store_has_the_members :
  forall tl members markers k,
    is_Some ((GoogleMap.updateMarkers tl true members markers).1 !! k)
    <-> exists m, m ∈ members /\ GoogleMap.id m = k.
Proof.
  intros tl members markers k. rewrite <- listed_elem, updateMarkers_lookup.
  split.
  - case_decide as Hl; [done |].
    rewrite listed_filter in Hl.
    destruct (filter (fun m => GoogleMap.id m = k) members); [| by destruct Hl].
    cbn. intros [? ?]; discriminate.
  - intros Hl. rewrite decide_True by exact Hl.
    apply listed_filter in Hl.
    destruct (filter (fun m => GoogleMap.id m = k) members) as [| x l _] using rev_ind;
      [done |].
    destruct (fold_touch_snoc tl l x (markers !! k)) as (e & He & _).
    rewrite He. eauto.
Qed.

Lemma filter_id_absent (members : list GoogleMap.Member) k :
  k ∉ GoogleMap.id <$> members ->
  filter (fun m' => GoogleMap.id m' = k) members = [].
Proof.
  induction members as [| y l IH]; intros Hk; [reflexivity |].
  rewrite fmap_cons in Hk. apply not_elem_of_cons in Hk as [Hky Hk].
  rewrite filter_cons_False by (intros Heq; by apply Hky). by apply IH.
Qed.

Lemma filter_id_NoDup (members : list GoogleMap.Member) m :
  NoDup (GoogleMap.id <$> members) ->
  m ∈ members ->
  filter (fun m' => GoogleMap.id m' = GoogleMap.id m) members = [m].
Proof.
  induction members as [| x l IH]; intros Hnd Hin; [by apply not_elem_of_nil in Hin |].
  rewrite fmap_cons in Hnd. apply NoDup_cons in Hnd as [Hx Hnd].
  apply elem_of_cons in Hin as [-> | Hin].
  - rewrite filter_cons_True by done. f_equal. by apply filter_id_absent.
  - rewrite filter_cons_False; [by apply IH |].
    intros Heq. apply Hx. rewrite Heq. apply list_elem_of_fmap. by exists m.
Qed.

(** With distinct member ids, after a pass every member has a marker at
    its location; a member that had none gets the marker built for it. *)
Theorem updateMarkers_places_members :
  forall tl members markers,
    NoDup (GoogleMap.id <$> members) ->
    forall m, m ∈ members ->
      exists marker,
        (GoogleMap.updateMarkers tl true members markers).1 !! GoogleMap.id m = Some marker
        /\ GoogleMap.position marker = GoogleMap.location m
        /\ (markers !! GoogleMap.id m = None -> marker = GoogleMap.newMarker tl m).
Proof.
  intros tl members markers Hnd m Hin.
  rewrite updateMarkers_lookup, (filter_id_NoDup members m Hnd Hin).
  cbn [fold_left]. unfold touch. eexists. split; [reflexivity |].
  case_decide; [destruct (markers !! GoogleMap.id m) |]; cbn; split; done.
Qed.

Lemma updateMarkers_places_members_witness :
  exists marker,
    (GoogleMap.updateMarkers showTime true [rider] ∅).1 !! "1" = Some marker
    /\ GoogleMap.position marker = GoogleMap.location rider.
Proof.
  assert (Hnd : NoDup (GoogleMap.id <$> [rider])).
  { cbn. apply NoDup_singleton. }
  assert (Hin : rider ∈ [rider]) by left.
  destruct (updateMarkers_places_members showTime [rider] ∅ Hnd rider Hin)
    as (marker & Hl & Hp & _).
  exists marker. split; [exact Hl | exact Hp].
Defined.

(** A marker that was there before a pass and whose member is still
    listed is only moved: title, colour and info window stay as they were
    created, whatever the member's status is now. *)
Theorem updateMarkers_only_moves_existing_markers :
  forall tl members markers k existing,
    markers !! k = Some existing ->
    (exists m, m ∈ members /\ GoogleMap.id m = k) ->
    exists marker,
      (GoogleMap.updateMarkers tl true members markers).1 !! k = Some marker
      /\ GoogleMap.title marker = GoogleMap.title existing
      /\ GoogleMap.fillColor marker = GoogleMap.fillColor existing
      /\ GoogleMap.infoWindow marker = GoogleMap.infoWindow existing
      /\ GoogleMap.onMap marker = GoogleMap.onMap existing.
Proof.
  intros tl members markers k existing Hk Hm.
  apply listed_elem in Hm.
  rewrite updateMarkers_lookup, decide_True, Hk by exact Hm.
  destruct (fold_touch_Some tl (filter (fun m => GoogleMap.id m = k) members) existing)
    as [p Hp].
  rewrite Hp. eexists. split; [reflexivity |]. cbn. done.
Qed.

Lemma updateMarkers_only_moves_existing_markers_witness :
  exists marker,
    (GoogleMap.updateMarkers showTime true [riderArrived]
       (GoogleMap.updateMarkers showTime true [rider] ∅).1).1 !! "1" = Some marker
    /\ GoogleMap.fillColor marker = "#ea580c".
Proof.
  assert (Hk : (GoogleMap.updateMarkers showTime true [rider] ∅).1 !! "1"
               = Some (GoogleMap.newMarker showTime rider)) by (vm_compute; reflexivity).
  assert (Hm : exists m, m ∈ [riderArrived] /\ GoogleMap.id m = "1").
  { exists riderArrived. split; [left | reflexivity]. }
  destruct (updateMarkers_only_moves_existing_markers showTime [riderArrived]
              (GoogleMap.updateMarkers showTime true [rider] ∅).1 "1"
              (GoogleMap.newMarker showTime rider) Hk Hm)
    as (marker & Hl & _ & Hc & _).
  exists marker. split; [exact Hl | exact Hc].
Defined.

(** One call per member in the second loop: a move or a creation. *)
Lemma fold_upsert_one_call_each tl ms : forall acc,
  exists moves,
    (fold_left (GoogleMap.upsert tl) ms acc).2 = acc.2 ++ moves
    /\ Forall2 (fun m op =>
                  op = GoogleMap.SetPosition (GoogleMap.id m) (GoogleMap.location m)
                  \/ op = GoogleMap.Create (GoogleMap.id m) (GoogleMap.newMarker tl m))
         ms moves.
Proof.
  induction ms as [| m ms IH]; intros acc; cbn [fold_left].
  - exists []. by rewrite app_nil_r.
  - destruct (IH (GoogleMap.upsert tl acc m)) as (moves & Heq & Hall).
    rewrite Heq, upsert_ops, <- app_assoc. eexists. split; [reflexivity |].
    cbn [app]. constructor; [| exact Hall].
    destruct (acc.1 !! GoogleMap.id m); [by left | by right].
Qed.

(** The calls of a pass: first the removals, exactly one for each stored id
    that no member has and none for any other id (their order among
    themselves is not stated); then one call per member, in list order, a
    move or a creation; then [fitBounds] when the list is not empty. *)
Theorem updateMarkers_calls :
  forall tl members markers,
    let ops := (GoogleMap.updateMarkers tl true members markers).2 in
    (forall k, GoogleMap.Remove k ∈ ops
               <-> is_Some (markers !! k) /\ ~ exists m, m ∈ members /\ GoogleMap.id m = k)
    /\ exists removes moves,
        ops = removes ++ moves
              ++ match members with
                 | [] => []
                 | _ :: _ => [GoogleMap.FitBounds (GoogleMap.location <$> members)]
                 end
        /\ NoDup removes
        /\ (forall op,
              op ∈ removes
              <-> exists k, op = GoogleMap.Remove k
                            /\ is_Some (markers !! k)
                            /\ ~ exists m, m ∈ members /\ GoogleMap.id m = k)
        /\ length removes
           = size (filter (fun entry => ~ GoogleMap.listed members entry.1) markers)
        /\ Forall2 (fun m op =>
                      op = GoogleMap.SetPosition (GoogleMap.id m) (GoogleMap.location m)
                      \/ op = GoogleMap.Create (GoogleMap.id m) (GoogleMap.newMarker tl m))
             members moves.
Proof.
  intros tl members markers ops. subst ops.
  unfold GoogleMap.updateMarkers. cbn [negb snd].
  destruct (fold_upsert_one_call_each tl members (GoogleMap.removeStale members markers))
    as (moves & Heq & Hall).
  rewrite Heq. unfold GoogleMap.removeStale at 1 2. cbn [snd].
  set (stale := filter (fun entry : string * GoogleMap.Marker =>
                          ¬ GoogleMap.listed members entry.1) markers).
  assert (Hrem : forall k,
             GoogleMap.Remove k
               ∈ ((fun entry : string * GoogleMap.Marker => GoogleMap.Remove entry.1)
                    <$> map_to_list stale)
             <-> is_Some (markers !! k) /\ ~ exists m, m ∈ members /\ GoogleMap.id m = k).
  { intros k. rewrite <- listed_elem. split.
    - intros Hin. apply list_elem_of_fmap in Hin as ([k' e] & [= <-] & Hin).
      apply elem_of_map_to_list in Hin. apply map_lookup_filter_Some in Hin as [He Hn].
      split; [eauto | exact Hn].
    - intros [[e He] Hn]. apply list_elem_of_fmap. exists (k, e). split; [reflexivity |].
      apply elem_of_map_to_list. apply map_lookup_filter_Some. done. }
  split.
  - intros k. rewrite <- Hrem. rewrite !elem_of_app. split; [| by left; left].
    intros [[Hin | Hin] | Hin]; [exact Hin | |].
    + exfalso. clear -Hall Hin.
      induction Hall as [| m op ms ops Hop _ IH]; [by apply not_elem_of_nil in Hin |].
      apply elem_of_cons in Hin as [Heq | Hin]; [| by apply IH].
      subst op. destruct Hop; discriminate.
    + destruct members; [by apply not_elem_of_nil in Hin |].
      apply list_elem_of_singleton in Hin. discriminate.
  - eexists _, moves. rewrite <- app_assoc. split; [reflexivity |].
    split; [| split; [| split; [| exact Hall]]].
    + replace ((fun entry : string * GoogleMap.Marker => GoogleMap.Remove entry.1)
                 <$> map_to_list stale)
        with (GoogleMap.Remove <$> (map_to_list stale).*1)
        by (rewrite <- list_fmap_compose; reflexivity).
      apply NoDup_fmap_2; [| apply NoDup_fst_map_to_list].
      intros k k' [= ->]. reflexivity.
    + intros op. split.
      * intros Hin. pose proof Hin as Hin'.
        apply list_elem_of_fmap in Hin' as ([k e] & -> & _).
        exists k. split; [reflexivity |]. by apply Hrem.
      * intros (k & -> & Hk). by apply Hrem.
    + by rewrite length_fmap, length_map_to_list.
Qed.

(** ** More on the Anomaly Detector *)

(** What a detection pass adds to the local alerts. *)
Lemma anomalyDetection_adds getTime rideId now envs rideMembers st :
  AlertSystem.alerts (MapDashboard.anomalyDetection getTime rideId now envs rideMembers st)
  = AlertSystem.alerts st
    ++ imap (anomalyAlert rideId envs)
         (filter (fun m => MapDashboard.stale getTime now m) rideMembers).
Proof.
  unfold MapDashboard.anomalyDetection. destruct rideMembers as [| m ms].
  - cbn. by rewrite app_nil_r.
  - by destruct (fold_checkMember getTime rideId now envs (m :: ms) 0%nat st) as (Ha & _).
Qed.

(** The detector keeps no memory: a second pass over the same roster adds
    an alert again for every member that is stale at that time. A pass that
    finds no stale member leaves the alert state as it is. *)
Theorem anomalyDetection_realerts_every_pass :
  forall getTime rideId now now' envs envs' rideMembers st,
    let flagged := filter (fun m => MapDashboard.stale getTime now m) rideMembers in
    let flagged' := filter (fun m => MapDashboard.stale getTime now' m) rideMembers in
    let once := MapDashboard.anomalyDetection getTime rideId now envs rideMembers st in
    let twice := MapDashboard.anomalyDetection getTime rideId now' envs' rideMembers once in
    AlertSystem.alerts twice
    = AlertSystem.alerts st
      ++ imap (anomalyAlert rideId envs) flagged
      ++ imap (anomalyAlert rideId envs') flagged'
    /\ (flagged = [] -> once = st).
Proof.
  intros getTime rideId now now' envs envs' rideMembers st flagged flagged' once twice.
  split.
  - subst twice once flagged flagged'.
    rewrite !anomalyDetection_adds. by rewrite <- app_assoc.
  - subst once flagged. intros Hnone. unfold MapDashboard.anomalyDetection.
    destruct rideMembers as [| m ms]; [reflexivity |].
    assert (Hgen : forall l k,
               filter (fun m => MapDashboard.stale getTime now m) l = [] ->
               fold_left (MapDashboard.checkMember getTime rideId now envs) l (k, st)
               = (k, st)).
    { induction l as [| x l IH]; intros k Hl; [reflexivity |].
      cbn [fold_left]. unfold MapDashboard.checkMember at 2.
      destruct (MapDashboard.stale getTime now x) eqn:Hs.
      - rewrite filter_cons_True in Hl by (by rewrite Hs). discriminate.
      - rewrite filter_cons_False in Hl by (rewrite Hs; intros []). by apply IH. }
    by rewrite Hgen.
Qed.

Lemma anomalyDetection_realerts_every_pass_witness :
  MapDashboard.anomalyDetection parseDate None sixMinutesLater (fun _ => env0)
    [bob] AlertSystem.initial
  = AlertSystem.initial.
Proof.
  exact (proj2 (anomalyDetection_realerts_every_pass parseDate None sixMinutesLater
                  sixMinutesLater (fun _ => env0) (fun _ => env0) [bob]
                  AlertSystem.initial) eq_refl).
Defined.

(** ** The alert centre *)

Lemma slice_last3_spec {A : Type} (l : list A) :
  take (length l - 3)%nat l ++ AlertCenter.slice_last3 l = l
  /\ length (AlertCenter.slice_last3 l) = Nat.min 3 (length l).
Proof.
  unfold AlertCenter.slice_last3. split; [apply take_drop |].
  rewrite length_drop. lia.
Qed.

(** For a non-empty list the alert centre renders the last three regular
    alerts, in order, and counts the ones it hides; no emergency alert is
    among them; the banner is absent exactly when no alert is an emergency;
    every alert is either an emergency or regular. *)
Theorem alertCenter_shows_last_three :
  forall alerts,
    alerts <> [] ->
    exists view hidden,
      AlertCenter.render alerts = Some view
      /\ AlertCenter.regularAlerts alerts = hidden ++ AlertCenter.notifications view
      /\ length (AlertCenter.notifications view)
         = Nat.min 3 (length (AlertCenter.regularAlerts alerts))
      /\ AlertCenter.more view
         = match hidden with [] => None | _ :: _ => Some (length hidden) end
      /\ Forall (fun a => AlertSystem.type a <> AlertSystem.emergency)
           (AlertCenter.notifications view)
      /\ (AlertCenter.banner view = None
          <-> Forall (fun a => AlertSystem.type a <> AlertSystem.emergency) alerts)
      /\ (length (AlertCenter.emergencyAlerts alerts)
          + length (AlertCenter.regularAlerts alerts) = length alerts)%nat.
Proof.
  intros alerts Hne. destruct alerts as [| a0 alerts0]; [done |].
  set (alerts := a0 :: alerts0) in *.
  set (regular := AlertCenter.regularAlerts alerts).
  destruct (slice_last3_spec regular) as [Hsplit Hlen].
  eexists _, (take (length regular - 3)%nat regular).
  split; [reflexivity |]. cbn [AlertCenter.notifications AlertCenter.more AlertCenter.banner].
  fold regular.
  split; [by rewrite Hsplit |]. split; [exact Hlen |].
  split.
  { assert (Hh : length (take (length regular - 3)%nat regular) = (length regular - 3)%nat)
      by (rewrite length_take; lia).
    case_bool_decide as H3; unfold regular in *.
    - destruct (take _ _) eqn:Ht; [cbn [length] in Hh; lia |].
      by rewrite Hh.
    - destruct (take _ _) eqn:Ht; [reflexivity |].
      cbn [length] in Hh. lia. }
  split.
  { apply Forall_forall. intros a Ha.
    assert (Hin : a ∈ regular).
    { rewrite <- Hsplit. apply elem_of_app. by right. }
    by apply list_elem_of_filter in Hin as [Hty _]. }
  split.
  { destruct (AlertCenter.emergencyAlerts alerts) as [| e es] eqn:He.
    - split; [| done]. intros _. apply Forall_forall. intros a Ha Hty.
      assert (Hin : a ∈ AlertCenter.emergencyAlerts alerts)
        by (by apply list_elem_of_filter).
      rewrite He in Hin. by apply not_elem_of_nil in Hin.
    - split; [discriminate |]. intros Hall. exfalso.
      assert (Hin : e ∈ AlertCenter.emergencyAlerts alerts) by (rewrite He; left).
      apply list_elem_of_filter in Hin as [Hty Hin].
      rewrite Forall_forall in Hall. by apply (Hall e Hin). }
  unfold regular, AlertCenter.emergencyAlerts, AlertCenter.regularAlerts.
  clearbody alerts. clear. induction alerts as [| a l IH]; [reflexivity |].
  destruct (decide (AlertSystem.type a = AlertSystem.emergency)) as [Hty | Hty].
  - rewrite filter_cons_True, filter_cons_False by (done || by intros H; apply H).
    cbn [length]. lia.
  - rewrite filter_cons_False, filter_cons_True by done. cbn [length]. lia.
Qed.

Lemma alertCenter_shows_last_three_witness :
  exists view hidden,
    AlertCenter.render [notice; notice; notice; notice] = Some view
    /\ AlertCenter.regularAlerts [notice; notice; notice; notice]
       = hidden ++ AlertCenter.notifications view
    /\ length (AlertCenter.notifications view) = 3%nat
    /\ AlertCenter.more view
       = match hidden with [] => None | _ :: _ => Some (length hidden) end.
Proof.
  destruct (alertCenter_shows_last_three [notice; notice; notice; notice])
    as (view & hidden & Hr & Hs & Hl & Hm & _); [discriminate |].
  exists view, hidden. split; [exact Hr |]. split; [exact Hs |].
  split; [exact Hl | exact Hm].
Defined.

(** When the id behind the banner's Dismiss button is not the id of a
    local alert, the banner shows a mirrored server emergency, and pressing
    Dismiss changes neither the hook state nor what is rendered. *)
Theorem dismiss_does_not_remove_server_alert :
  forall st view b,
    AlertCenter.render (AlertSystem.allAlerts st) = Some view ->
    AlertCenter.banner view = Some b ->
    (forall a, a ∈ AlertSystem.alerts st -> AlertSystem.id a <> AlertCenter.banner_dismiss b) ->
    AlertSystem.removeAlert (AlertCenter.banner_dismiss b) st = st
    /\ AlertCenter.render
         (AlertSystem.allAlerts (AlertSystem.removeAlert (AlertCenter.banner_dismiss b) st))
       = Some view
    /\ exists serverAlert,
        serverAlert ∈ AlertSystem.serverAlerts st
        /\ Api.type serverAlert = Api.emergency
        /\ Api.id serverAlert = AlertCenter.banner_dismiss b
        /\ Api.message serverAlert = AlertCenter.banner_message b.
Proof.
  intros st view b Hr Hb Hlocal.
  pose proof (removeAlert_absent _ st Hlocal) as Hsame.
  split; [exact Hsame |]. split; [by rewrite Hsame |].
  unfold AlertCenter.render in Hr.
  destruct (AlertSystem.allAlerts st) as [| a0 l] eqn:Hall; [discriminate |].
  injection Hr as <-. cbn [AlertCenter.banner] in Hb. rewrite <- Hall in Hb.
  destruct (AlertCenter.emergencyAlerts (AlertSystem.allAlerts st)) as [| first rest] eqn:He;
    [discriminate |].
  injection Hb as <-. cbn [AlertCenter.banner_dismiss AlertCenter.banner_message] in *.
  assert (Hin : first ∈ AlertCenter.emergencyAlerts (AlertSystem.allAlerts st))
    by (rewrite He; left).
  apply list_elem_of_filter in Hin as [Hty Hin].
  unfold AlertSystem.allAlerts in Hin. apply elem_of_app in Hin as [Hin | Hin].
  - exfalso. by apply (Hlocal first Hin).
  - apply list_elem_of_fmap in Hin as (sa & -> & Hsa).
    exists sa. split; [exact Hsa |]. cbn in Hty |- *.
    split; [| done]. by case_decide.
Qed.

Lemma dismiss_does_not_remove_server_alert_witness :
  AlertSystem.removeAlert "a-1" mirroredEmergency = mirroredEmergency.
Proof.
  refine (proj1 (dismiss_does_not_remove_server_alert mirroredEmergency _
                   {| AlertCenter.banner_message := "help";
                      AlertCenter.banner_more := None;
                      AlertCenter.banner_dismiss := "a-1" |} eq_refl eq_refl _)).
  intros a Ha. cbn in Ha. by apply not_elem_of_nil in Ha.
Defined.

(** ** The API client *)

(** In the browser a token set on the client is the token of a client
    built later over the same storage, and a cleared one is gone for it;
    clearing after setting is clearing; [setToken] and [clearToken] touch no
    other storage key, and outside the browser neither of them touches the
    storage at all. *)
Theorem token_survives_reload :
  forall window baseUrl t w,
    ApiClient.token
      (ApiClient.client
         (ApiClient.new window baseUrl
            (ApiClient.localStorage (ApiClient.setToken window t w))))
    = (if window then Some t else None)
    /\ ApiClient.token
         (ApiClient.client
            (ApiClient.new window baseUrl
               (ApiClient.localStorage (ApiClient.clearToken window w))))
       = None
    /\ ApiClient.token (ApiClient.client (ApiClient.setToken window t w)) = Some t
    /\ ApiClient.token (ApiClient.client (ApiClient.clearToken window w)) = None
    /\ ApiClient.clearToken window (ApiClient.setToken window t (ApiClient.clearToken window w))
       = ApiClient.clearToken window w
    /\ ApiClient.clearToken window (ApiClient.setToken window t w)
       = ApiClient.clearToken window w
    /\ (forall key, key <> "auth_token" ->
          ApiClient.localStorage (ApiClient.setToken window t w) !! key
          = ApiClient.localStorage w !! key
          /\ ApiClient.localStorage (ApiClient.clearToken window w) !! key
             = ApiClient.localStorage w !! key)
    /\ (window = true ->
        ApiClient.localStorage (ApiClient.setToken window t w) !! "auth_token" = Some t
        /\ ApiClient.localStorage (ApiClient.clearToken window w) !! "auth_token" = None)
    /\ (window = false ->
        ApiClient.localStorage (ApiClient.setToken window t w) = ApiClient.localStorage w
        /\ ApiClient.localStorage (ApiClient.clearToken window w) = ApiClient.localStorage w).
Proof.
  intros window baseUrl t w.
  unfold ApiClient.new, ApiClient.setToken, ApiClient.clearToken.
  destruct window;
    cbn [ApiClient.client ApiClient.localStorage ApiClient.token ApiClient.baseUrl].
  - split; [apply lookup_insert_eq |]. split; [apply lookup_delete_eq |].
    split; [reflexivity |]. split; [reflexivity |].
    split; [by rewrite delete_insert_eq, delete_delete_eq |].
    split; [by rewrite delete_insert_eq |].
    split; [| split; [| discriminate]].
    + intros key Hk. by rewrite lookup_insert_ne, lookup_delete_ne.
    + intros _. split; [apply lookup_insert_eq | apply lookup_delete_eq].
  - split; [reflexivity |]. split; [reflexivity |].
    split; [reflexivity |]. split; [reflexivity |].
    split; [reflexivity |]. split; [reflexivity |].
    split; [done |]. split; [discriminate |].
    intros _. split; reflexivity.
Qed.

Lemma token_survives_reload_witness :
  ApiClient.localStorage
    (ApiClient.setToken true "tok" (ApiClient.new true "http://localhost:8080" ∅))
    !! "refresh_token"
  = (∅ : gmap string string) !! "refresh_token"
  /\ ApiClient.localStorage
       (ApiClient.clearToken false
          (ApiClient.new false "http://localhost:8080" {[ "auth_token" := "tok" ]}))
     = {[ "auth_token" := "tok" ]}
  /\ ApiClient.localStorage
       (ApiClient.clearToken true
          (ApiClient.new true "http://localhost:8080" {[ "auth_token" := "tok" ]}))
       !! "auth_token"
     = None.
Proof.
  destruct (token_survives_reload true "http://localhost:8080" "tok"
              (ApiClient.new true "http://localhost:8080" ∅))
    as (_ & _ & _ & _ & _ & _ & Hkeys & _).
  destruct (token_survives_reload false "http://localhost:8080" "tok"
              (ApiClient.new false "http://localhost:8080" {[ "auth_token" := "tok" ]}))
    as (_ & _ & _ & _ & _ & _ & _ & _ & Hserver).
  destruct (token_survives_reload true "http://localhost:8080" "tok"
              (ApiClient.new true "http://localhost:8080" {[ "auth_token" := "tok" ]}))
    as (_ & _ & _ & _ & _ & _ & _ & Hbrowser & _).
  split; [| split].
  - refine (proj1 (Hkeys "refresh_token" _)). discriminate.
  - exact (proj2 (Hserver eq_refl)).
  - exact (proj2 (Hbrowser eq_refl)).
Defined.

(** The headers of a request: a non-empty token always gives
    [Authorization: Bearer token], over whatever the caller passed; without
    a token the caller's value is kept; the content type is JSON unless the
    caller gives one; every other header is the caller's. *)
Theorem request_headers :
  forall c optionsHeaders,
    let h := ApiClient.headers c optionsHeaders in
    (forall t, ApiClient.token c = Some t -> t <> "" ->
       h !! "Authorization" = Some ("Bearer " +:+ t))
    /\ (truthy (ApiClient.token c) = false ->
        h !! "Authorization" = optionsHeaders !! "Authorization")
    /\ h !! "Content-Type"
       = Some (default "application/json" (optionsHeaders !! "Content-Type"))
    /\ (forall key, key <> "Authorization" -> key <> "Content-Type" ->
          h !! key = optionsHeaders !! key).
Proof.
  intros c optionsHeaders h. subst h. unfold ApiClient.headers.
  assert (Hct : (optionsHeaders ∪ {[ "Content-Type" := "application/json" ]}
                  : gmap string string) !! "Content-Type"
                = Some (default "application/json" (optionsHeaders !! "Content-Type"))).
  { rewrite lookup_union. destruct (optionsHeaders !! "Content-Type"); cbn.
    - by rewrite lookup_singleton_eq.
    - by rewrite lookup_singleton_eq. }
  assert (Hother : forall key, key <> "Content-Type" ->
             (optionsHeaders ∪ {[ "Content-Type" := "application/json" ]}
               : gmap string string) !! key = optionsHeaders !! key).
  { intros key Hk. rewrite lookup_union, lookup_singleton_ne by done.
    by destruct (optionsHeaders !! key). }
  split; [| split; [| split]].
  - intros t Ht Hne. rewrite Ht. cbn.
    destruct (String.eqb_spec t ""); [done |]. cbn. by rewrite lookup_insert_eq.
  - intros Hf. rewrite Hf. destruct (ApiClient.token c); by rewrite Hother.
  - destruct (truthy (ApiClient.token c)), (ApiClient.token c);
      rewrite ?lookup_insert_ne by done; exact Hct.
  - intros key Hka Hkc.
    destruct (truthy (ApiClient.token c)), (ApiClient.token c);
      rewrite ?lookup_insert_ne by done; by apply Hother.
Qed.

Lemma request_headers_witness :
  ApiClient.headers
    (ApiClient.client (ApiClient.setToken true "tok" (ApiClient.new true "" ∅)))
    {[ "Authorization" := "Basic abc" ]}
    !! "Authorization"
  = Some "Bearer tok".
Proof.
  refine (proj1 (request_headers
                   (ApiClient.client (ApiClient.setToken true "tok" (ApiClient.new true "" ∅)))
                   {[ "Authorization" := "Basic abc" ]}) "tok" eq_refl _).
  discriminate.
Defined.

(** ** Authentication *)

(** [logout] ends with no user, no token on the client and neither token
    in the storage, however the backend call went; other storage keys are
    kept; the call is made only when a refresh token was stored. *)
Theorem logout_clears_credentials :
  forall settled st,
    let r := Auth.logout settled st in
    Auth.user r.1 = None
    /\ Auth.isAuthenticated r.1 = false
    /\ clientToken r.1 = None
    /\ stored "auth_token" r.1 = None
    /\ stored "refresh_token" r.1 = None
    /\ (forall key, key <> "auth_token" -> key <> "refresh_token" ->
          stored key r.1 = stored key st)
    /\ r.2 = (if truthy (stored "refresh_token" st) then stored "refresh_token" st else None).
Proof.
  intros settled st r. subst r.
  unfold Auth.logout, clientToken, stored, Auth.onApi, Auth.removeItem, ApiClient.clearToken,
    Auth.setUser, Auth.isAuthenticated.
  cbn [fst snd Auth.user Auth.api ApiClient.client ApiClient.localStorage ApiClient.token].
  split; [reflexivity |]. split; [reflexivity |]. split; [reflexivity |].
  split; [by rewrite lookup_delete_ne, lookup_delete_eq |].
  split; [apply lookup_delete_eq |].
  split; [| reflexivity].
  intros key H1 H2. by rewrite !lookup_delete_ne.
Qed.

(** [login] always ends with [isLoading] off. A failed login throws and
    leaves user, client and storage as they were; an accepted one returns
    with the user set, the token on the client and in the storage, and the
    refresh token stored when the response carries one. *)
Theorem login_outcome :
  forall settled st,
    let r := Auth.login settled st in
    Auth.isLoading r.1 = false
    /\ (fetchFailed settled = true ->
        (exists message, r.2 = Auth.Threw message)
        /\ Auth.user r.1 = Auth.user st
        /\ Auth.api r.1 = Auth.api st)
    /\ (forall response,
          settled = Api.Fulfilled response -> Api.success response = true ->
          r.2 = Auth.Returned
          /\ Auth.user r.1 = Some (Auth.login_user (Api.data response))
          /\ clientToken r.1 = Some (Auth.login_token (Api.data response))
          /\ stored "auth_token" r.1 = Some (Auth.login_token (Api.data response))
          /\ stored "refresh_token" r.1
             = (if truthy (Auth.login_refreshToken (Api.data response))
                then Auth.login_refreshToken (Api.data response)
                else stored "refresh_token" st)).
Proof.
  intros settled st r. subst r. unfold Auth.login.
  destruct settled as [response|]; [destruct (Api.success response) eqn:Hs |].
  - split; [reflexivity |]. split; [cbn; rewrite Hs; discriminate |].
    intros response' [= <-] _. split; [reflexivity |].
    unfold clientToken, stored.
    destruct (Auth.login_refreshToken (Api.data response)) as [rt|] eqn:Hrt; cbn.
    + destruct (negb (String.eqb rt "")); cbn.
      * rewrite lookup_insert_ne, !lookup_insert_eq by done. done.
      * rewrite lookup_insert_eq, lookup_insert_ne by done. done.
    + rewrite lookup_insert_eq, lookup_insert_ne by done. done.
  - split; [reflexivity |]. split; [| intros response' [= <-] Hs'; congruence].
    intros _. split; [eauto |]. split; reflexivity.
  - split; [reflexivity |]. split; [| discriminate].
    intros _. split; [eauto |]. split; reflexivity.
Qed.

Lemma login_outcome_witness :
  Auth.user (Auth.login (Api.Fulfilled loginOk) loggedOut).1 = Some aliceUser
  /\ clientToken (Auth.login (Api.Fulfilled loginOk) loggedOut).1 = Some "tok"
  /\ Auth.api (Auth.login Api.Rejected loggedOut).1 = Auth.api loggedOut.
Proof.
  destruct (login_outcome (Api.Fulfilled loginOk) loggedOut) as (_ & _ & Hok).
  destruct (Hok loginOk eq_refl eq_refl) as (_ & Hu & Ht & _).
  destruct (login_outcome Api.Rejected loggedOut) as (_ & Hfail & _).
  destruct (Hfail eq_refl) as (_ & _ & Ha).
  split; [exact Hu |]. split; [exact Ht | exact Ha].
Defined.

(** [checkAuth] always ends with [isLoading] off and asks for the profile
    exactly when a non-empty token is stored. Without one nothing changes; a
    failed profile request clears the token from client and storage; a
    successful one sets the user and keeps the token. *)
Theorem checkAuth_outcome :
  forall settled st,
    let r := Auth.checkAuth settled st in
    Auth.isLoading r.1 = false
    /\ r.2 = truthy (stored "auth_token" st)
    /\ (r.2 = false -> Auth.user r.1 = Auth.user st /\ Auth.api r.1 = Auth.api st)
    /\ (r.2 = true -> fetchFailed settled = true ->
        Auth.user r.1 = Auth.user st
        /\ clientToken r.1 = None
        /\ stored "auth_token" r.1 = None)
    /\ (forall response,
          r.2 = true -> settled = Api.Fulfilled response -> Api.success response = true ->
          Auth.user r.1 = Some (Api.data response)
          /\ clientToken r.1 = stored "auth_token" st
          /\ stored "auth_token" r.1 = stored "auth_token" st).
Proof.
  intros settled st r. subst r. unfold Auth.checkAuth, stored, clientToken.
  destruct (ApiClient.localStorage (Auth.api st) !! "auth_token") as [token|] eqn:Htok;
    cbn [truthy].
  - destruct (negb (String.eqb token "")) eqn:Hne; cbn [fst snd].
    + split; [reflexivity |]. split; [reflexivity |]. split; [discriminate |].
      destruct settled as [response|]; [destruct (Api.success response) eqn:Hs |].
      * split; [cbn; rewrite Hs; discriminate |].
        intros response' _ [= <-] _. cbn. rewrite lookup_insert_eq. done.
      * split; [| intros response' _ [= <-] Hs'; congruence].
        intros _ _. cbn. rewrite lookup_delete_eq. done.
      * split; [| discriminate].
        intros _ _. cbn. rewrite lookup_delete_eq. done.
    + split; [reflexivity |]. split; [reflexivity |]. split; [done |].
      split; discriminate.
  - cbn [fst snd]. split; [reflexivity |]. split; [reflexivity |]. split; [done |].
    split; discriminate.
Qed.

Lemma checkAuth_outcome_witness :
  (Auth.checkAuth Api.Rejected loggedOut).2 = false
  /\ Auth.api (Auth.checkAuth Api.Rejected loggedOut).1 = Auth.api loggedOut.
Proof.
  destruct (checkAuth_outcome Api.Rejected loggedOut) as (_ & Hcall & Hnone & _).
  split; [exact Hcall | exact (proj2 (Hnone Hcall))].
Defined.

(** [register] logs in exactly when the registration was accepted, and
    then ends as that login ends; a refused or failed registration throws
    and leaves user, client and storage as they were. *)
Theorem register_outcome :
  forall registered loggedIn st,
    let r := Auth.register registered loggedIn st in
    Auth.isLoading r.1.1 = false
    /\ r.2 = negb (fetchFailed registered)
    /\ (fetchFailed registered = true ->
        (exists message, r.1.2 = Auth.Threw message)
        /\ Auth.user r.1.1 = Auth.user st
        /\ Auth.api r.1.1 = Auth.api st)
    /\ (fetchFailed registered = false ->
        r.1.2 = (Auth.login loggedIn st).2
        /\ Auth.user r.1.1 = Auth.user (Auth.login loggedIn st).1
        /\ Auth.api r.1.1 = Auth.api (Auth.login loggedIn st).1).
Proof.
  intros registered loggedIn st r. subst r. unfold Auth.register.
  destruct registered as [response|]; [destruct (Api.success response) eqn:Hs |];
    cbn [fetchFailed fst snd]; rewrite ?Hs; cbn [negb].
  - split; [reflexivity |]. split; [reflexivity |]. split; [discriminate |].
    intros _. unfold Auth.login.
    destruct loggedIn as [answer|]; [destruct (Api.success answer) |]; cbn; done.
  - split; [reflexivity |]. split; [reflexivity |]. split; [| discriminate].
    intros _. split; [eauto |]. split; reflexivity.
  - split; [reflexivity |]. split; [reflexivity |]. split; [| discriminate].
    intros _. split; [eauto |]. split; reflexivity.
Qed.

Lemma register_outcome_witness :
  (Auth.register (Api.Fulfilled registrationRefused) (Api.Fulfilled loginOk) loggedOut).2
    = false
  /\ Auth.user
       (Auth.register (Api.Fulfilled registrationRefused) (Api.Fulfilled loginOk) loggedOut).1.1
     = None.
Proof.
  destruct (register_outcome (Api.Fulfilled registrationRefused) (Api.Fulfilled loginOk)
              loggedOut) as (_ & Hcall & Hfail & _).
  split; [exact Hcall | exact (proj1 (proj2 (Hfail eq_refl)))].
Defined.

(** The stored token after an accepted login, after a logout, and what
    [checkAuth] does with and without one. *)
Lemma login_stores_token response st :
  Api.success response = true ->
  stored "auth_token" (Auth.login (Api.Fulfilled response) st).1
  = Some (Auth.login_token (Api.data response)).
Proof.
  intros Hs. unfold Auth.login, stored. rewrite Hs.
  destruct (Auth.login_refreshToken (Api.data response)) as [rt|]; cbn.
  - destruct (negb (String.eqb rt "")); cbn;
      rewrite ?(lookup_insert_ne _ "refresh_token") by done; apply lookup_insert_eq.
  - apply lookup_insert_eq.
Qed.

Lemma logout_removes_token settled st :
  stored "auth_token" (Auth.logout settled st).1 = None.
Proof.
  unfold Auth.logout, stored, Auth.onApi, Auth.removeItem, ApiClient.clearToken.
  cbn [fst Auth.api ApiClient.localStorage].
  by rewrite lookup_delete_ne, lookup_delete_eq.
Qed.

Lemma checkAuth_with_token profile st token :
  stored "auth_token" st = Some token -> token <> "" ->
  Api.success profile = true ->
  Auth.checkAuth (Api.Fulfilled profile) st
  = (Auth.setIsLoading false
       (Auth.setUser (Some (Api.data profile))
          (Auth.onApi (ApiClient.setToken true token) st)),
     true).
Proof.
  unfold stored, Auth.checkAuth. intros -> Hne Hs. cbn [truthy].
  destruct (String.eqb_spec token ""); [done |]. cbn [negb]. by rewrite Hs.
Qed.

Lemma checkAuth_without_token settled st :
  stored "auth_token" st = None ->
  Auth.checkAuth settled st = (Auth.setIsLoading false st, false).
Proof. unfold stored, Auth.checkAuth. by intros ->. Qed.

(** A session outlives a reload until logout: after an accepted login, a
    reload followed by a successful profile check has the user and the token
    again; after a logout, a reload finds no token, asks nothing and has no
    user. *)
Theorem session_survives_reload_until_logout :
  forall response profile settled st,
    Api.success response = true ->
    Auth.login_token (Api.data response) <> "" ->
    Api.success profile = true ->
    let loggedIn := (Auth.login (Api.Fulfilled response) st).1 in
    let back := Auth.checkAuth (Api.Fulfilled profile) (reload loggedIn) in
    let gone := Auth.checkAuth (Api.Fulfilled profile)
                  (reload (Auth.logout settled loggedIn).1) in
    back.2 = true
    /\ Auth.user back.1 = Some (Api.data profile)
    /\ clientToken back.1 = Some (Auth.login_token (Api.data response))
    /\ gone.2 = false
    /\ Auth.user gone.1 = None
    /\ clientToken gone.1 = None.
Proof.
  intros response profile settled st Hs Htok Hp loggedIn back gone.
  subst back gone.
  rewrite (checkAuth_with_token profile (reload loggedIn)
             (Auth.login_token (Api.data response)))
    by (first [ exact (login_stores_token response st Hs) | done ]).
  rewrite (checkAuth_without_token (Api.Fulfilled profile)
             (reload (Auth.logout settled loggedIn).1))
    by exact (logout_removes_token settled loggedIn).
  unfold clientToken. cbn [fst snd Auth.user Auth.setIsLoading Auth.setUser Auth.onApi
    Auth.api ApiClient.setToken ApiClient.client ApiClient.token reload ApiClient.new].
  split; [reflexivity |]. split; [reflexivity |]. split; [reflexivity |].
  split; [reflexivity |]. split; [reflexivity |].
  exact (logout_removes_token settled loggedIn).
Qed.

Lemma session_survives_reload_until_logout_witness :
  Auth.user
    (Auth.checkAuth (Api.Fulfilled profileOk)
       (reload (Auth.login (Api.Fulfilled loginOk) loggedOut).1)).1
  = Some aliceUser.
Proof.
  assert (Hne : Auth.login_token (Api.data loginOk) <> "") by discriminate.
  exact (proj1 (proj2 (session_survives_reload_until_logout loginOk profileOk Api.Rejected
                         loggedOut eq_refl Hne eq_refl))).
Defined.

Lemma logout_clears_credentials_witness :
  stored "theme" (Auth.logout Api.Rejected loggedOut).1 = stored "theme" loggedOut.
Proof.
  destruct (logout_clears_credentials Api.Rejected loggedOut)
    as (_ & _ & _ & _ & _ & Hkeys & _).
  refine (Hkeys "theme" _ _); discriminate.
Defined.

Lemma removeAlert_keeps_server_alerts_witness :
  AlertSystem.ofServerAlert (Api.data accepted)
    ∈ AlertSystem.allAlerts (AlertSystem.removeAlert "a-1" mirroredEmergency).
Proof.
  refine (proj2 (proj2 (removeAlert_keeps_server_alerts "a-1" mirroredEmergency))
            (Api.data accepted) _).
  left.
Defined.

Lemma poll_keeps_last_good_snapshot_witness :
  RealTimeUpdates.members
    (poll "ride-1"
       [ (Api.Fulfilled (roster true [alice]), 1700000003000);
         (Api.Rejected, 1700000006000) ]
       RealTimeUpdates.initial)
  = [alice]
  /\ RealTimeUpdates.isConnected
       (poll "ride-1"
          [ (Api.Fulfilled (roster true [alice]), 1700000003000);
            (Api.Rejected, 1700000006000) ]
          RealTimeUpdates.initial)
     = false.
Proof.
  destruct (poll_keeps_last_good_snapshot "ride-1"
              [ (Api.Fulfilled (roster true [alice]), 1700000003000);
                (Api.Rejected, 1700000006000) ]
              RealTimeUpdates.initial) as (Hm & _ & Hlast).
  split; [exact Hm |].
  exact (proj1 (Hlast (Api.Rejected, 1700000006000) eq_refl)).
Defined.
